(** * FiLiP: the QuantumLeap time-series client and the simple query language

    A shallow embedding of

    - [filip/core/simple_query_language.py]: [Operator], [Statement],
      [create_query];
    - [filip/clients/ngsi_v2/quantumleap.py]: the page loop of
      [QuantumLeapClient.__query_builder], the query methods that merge the
      collected page bodies, and [post_subscription].

    Python values are modelled by the types below.  Exceptions are explicit
    ([outcome]); the HTTP requests a method issues are recorded in order
    ([io]); the [while] loop of [__query_builder], which need not terminate
    when no limit is given, takes fuel. *)

From stdpp Require Import gmap strings list fin_maps pretty.
From Stdlib Require Import ZArith Lia Ascii.

Open Scope Z_scope.

#[local] Set Warnings "-clear-no-such-hyp".

(** ** Decoded JSON

    What [res.json()] returns: the generic tree of [None], [bool], numbers,
    [str], [list] and [dict].  No operation below looks inside a number other
    than a request parameter, so numbers are integers. *)

#[warning="-register-all"]
Inductive json : Type :=
| JNull
| JBool (b : bool)
| JNum (n : Z)
| JStr (s : string)
| JList (items : list json)
| JDict (fields : gmap string json).

(** ** Exceptions and results *)

Record response : Type := mkResponse {
  status_code : Z;
  (** the decoded body, [None] when the body is not JSON *)
  body : option json
}.

Inductive exn : Type :=
| HTTPError (r : response)               (* raised by [raise_for_status] *)
| RequestException (r : option response) (* raised by the transport itself *)
| JSONDecodeError                        (* [res.json()] on a non-JSON body *)
| AttributeError
| TypeError
| ValueError
| IndexError
| AssertionError
| OverflowError
| ValidationError.                       (* pydantic *)

Inductive outcome (A : Type) : Type :=
| Return (a : A)
| Raise (e : exn).
Arguments Return {A} a.
Arguments Raise {A} e.

Definition raises {A} (o : outcome A) : Prop := ∃ e, o = Raise e.

Definition obind {A B} (o : outcome A) (k : A → outcome B) : outcome B :=
  match o with
  | Return a => k a
  | Raise e => Raise e
  end.

#[global] Instance outcome_bind : MBind outcome := λ A B k o, obind o k.
#[global] Instance outcome_ret : MRet outcome := λ A a, Return a.

(** ** HTTP

    The transport ([BaseHttpClient.get] and [.post], on top of [requests]) is
    outside the two modules: a request either yields a response or raises a
    [RequestException], which may carry a response. *)

Record request : Type := mkRequest {
  req_url : string;
  req_params : gmap string json
}.

Inductive http_result : Type :=
| Responded (res : response)
| Failed (r : option response).

(** [Response.ok]: [raise_for_status] does not raise, that is the status is
    not in 400..599. *)
Definition ok (res : response) : bool :=
  negb ((400 <=? status_code res) && (status_code res <? 600)).

(** [self]: the client object. *)
Record Client : Type := mkClient {
  base_url : string;
  get : request → http_result;
  post : request → http_result
}.

(** What the module imports and the models do not show: [urljoin] of
    [urllib.parse], [settings.CB_URL], and the constructors of the three
    enumerations [AggrMethod], [AggrPeriod] and [AggrScope] of
    [filip.models.ngsi_v2.timeseries], which give the member's value or raise
    [ValueError] ([None] here). *)
Class Externals : Type := mkExternals {
  urljoin : string → string → string;
  CB_URL : string;
  AggrMethod : string → option string;
  AggrPeriod : string → option string;
  AggrScope : string → option string
}.

(** A computation that issues requests: the requests sent, in order, and the
    result; [None] when the fuel ran out before the loop ended. *)
Definition io (A : Type) : Type := (list request * option (outcome A))%type.

Definition io_ret {A} (a : A) : io A := ([], Some (Return a)).
Definition io_bind {A B} (m : io A) (k : A → io B) : io B :=
  match m with
  | (sent, Some (Return a)) => let '(sent', r) := k a in (sent ++ sent', r)
  | (sent, Some (Raise e)) => (sent, Some (Raise e))
  | (sent, None) => (sent, None)
  end.
Definition io_lift {A} (o : outcome A) : io A := ([], Some o).

#[global] Instance io_mbind : MBind io := λ A B k m, io_bind m k.
#[global] Instance io_mret : MRet io := λ A a, io_ret a.

(** Python truthiness of an optional string and of an optional integer. *)
Definition truthy_str (o : option string) : option string :=
  match o with
  | Some s => if decide (s = "") then None else Some s
  | None => None
  end.

Definition truthy_int (o : option Z) : option Z :=
  match o with
  | Some z => if decide (z = 0) then None else Some z
  | None => None
  end.

(** ** [QuantumLeapClient.__query_builder] *)

(** The keyword arguments of [__query_builder], [None] for an argument that
    is not given.  [limit = None] stands for [inf]. *)
Record query_args : Type := mkQueryArgs {
  entity_id : option string;
  options : option string;
  entity_type : option string;
  aggr_method : option string;
  aggr_period : option string;
  from_date : option string;
  to_date : option string;
  last_n : option Z;
  limit : option Z;
  offset : option Z;
  georel : option string;
  geometry : option string;
  coords : option string;
  attrs : option string;
  aggr_scope : option string
}.

Definition max_entries_per_request : Z := 5.

(** [offset < limit], where [limit] is [inf] when it was [None]. *)
Definition below_limit (offset : Z) (limit : option Z) : bool :=
  match limit with
  | Some l => offset <? l
  | None => true
  end.

(** [if v: params.update({key: v})] *)
Definition update_if (key : string) (v : option string)
    (params : gmap string json) : gmap string json :=
  match truthy_str v with
  | Some s => <[key := JStr s]> params
  | None => params
  end.

(** [if v: v = E(v); params.update({key: v.value})] for an enumeration [E]. *)
Definition update_enum (E : string → option string) (key : string)
    (v : option string) (params : gmap string json)
  : outcome (gmap string json) :=
  match truthy_str v with
  | Some s =>
      match E s with
      | Some value => Return (<[key := JStr value]> params)
      | None => Raise ValueError
      end
  | None => Return params
  end.

(** The part of [__query_builder] before the loop: the parameters every page
    request carries. *)
Definition build_params `{Externals} (a : query_args)
  : outcome (gmap string json) :=
  let params : gmap string json := ∅ in
  let params := update_if "options" (options a) params in
  let params := update_if "type" (entity_type a) params in
  params ← update_enum AggrMethod "aggrMethod" (aggr_method a) params;
  params ← update_enum AggrPeriod "aggrPeriod" (aggr_period a) params;
  let params := update_if "fromDate" (from_date a) params in
  let params := update_if "toDate" (to_date a) params in
  let params :=
    match truthy_int (last_n a) with
    | Some n => <["lastN" := JNum n]> params
    | None => params
    end in
  let params :=
    match limit a with
    | Some l =>
        if max_entries_per_request <? l
        then <["limit" := JNum max_entries_per_request]> params
        else <["limit" := JNum l]> params
    | None => <["limit" := JNum max_entries_per_request]> params
    end in
  let params := update_if "georel" (georel a) params in
  let params := update_if "coords" (coords a) params in
  let params := update_if "geometry" (geometry a) params in
  let params := update_if "attrs" (attrs a) params in
  params ← update_enum AggrScope "aggr_scope" (aggr_scope a) params;
  let params := update_if "id" (entity_id a) params in
  Return params.

(** How one pass through the loop body ends. *)
Inductive loop_exit : Type :=
| Continue (list_of_res : list json)
| Break
| Throw (e : exn).

(** [err.response.json().get('error') == 'Not Found'] on a decoded body that
    is a dict. *)
Definition error_is_not_found (fields : gmap string json) : bool :=
  match fields !! "error" with
  | Some (JStr s) => bool_decide (s = "Not Found")
  | _ => false
  end.

(** The [except requests.exceptions.RequestException as err] clause.  The
    three conjuncts are evaluated left to right; [err.response] is [None] for
    an exception that carries no response, a body that is not JSON makes
    [.json()] raise, and a body that is not a dict has no [.get]. *)
Definition except_clause (err : exn) (err_response : option response)
    (list_of_res : list json) : loop_exit :=
  match err_response with
  | None => Throw AttributeError
  | Some r =>
      if bool_decide (status_code r = 404) then
        match body r with
        | None => Throw JSONDecodeError
        | Some (JDict fields) =>
            if error_is_not_found fields
               && bool_decide (0 < length list_of_res)%nat
            then Break
            else Throw err
        | Some _ => Throw AttributeError
        end
      else Throw err
  end.

(** The [try] block, given what [self.get] did.  [res.json()] raises on a
    body that is not JSON; which exception leaves the method then depends on
    the version of [requests] (its own [JSONDecodeError] is a
    [RequestException] and passes through the handler, the older [ValueError]
    does not), and it is kept as one [JSONDecodeError]. *)
Definition try_block (fetched : http_result) (list_of_res : list json)
  : loop_exit :=
  match fetched with
  | Failed r => except_clause (RequestException r) r list_of_res
  | Responded res =>
      if ok res then
        match body res with
        | Some b => Continue (list_of_res ++ [b])
        | None => Throw JSONDecodeError
        end
      else except_clause (HTTPError res) (Some res) list_of_res
  end.

(** [while offset < limit: ...], with the [return list_of_res] after it. *)
Fixpoint page_loop (self : Client) (url : string) (limit : option Z)
    (fuel : nat) (params : gmap string json) (offset : Z)
    (list_of_res : list json) : io (list json) :=
  if below_limit offset limit then
    match fuel with
    | O => ([], None)
    | S fuel =>
        let params := <["offset" := JNum offset]> params in
        let req := mkRequest url params in
        match try_block (get self req) list_of_res with
        | Continue list_of_res =>
            let '(sent, r) :=
              page_loop self url limit fuel params
                (offset + max_entries_per_request) list_of_res in
            (req :: sent, r)
        | Break => ([req], Some (Return list_of_res))
        | Throw e => ([req], Some (Raise e))
        end
    end
  else ([], Some (Return list_of_res)).

Definition query_builder `{Externals} (self : Client) (fuel : nat)
    (url : string) (a : query_args) : io (list json) :=
  params ← io_lift (build_params a);
  let offset := default 0 (offset a) in
  page_loop self url (limit a) fuel params offset [].

(** ** Pages: vocabulary for the statements about the loop *)

(** The request of the page at [offset]: the loop stores the offset in
    [params] and sends the whole dict. *)
Definition page_request (url : string) (params : gmap string json)
    (offset : Z) : request :=
  mkRequest url (<["offset" := JNum offset]> params).

(** The offsets of [n] consecutive pages. *)
Fixpoint page_offsets (start : Z) (n : nat) : list Z :=
  match n with
  | O => []
  | S n => start :: page_offsets (start + max_entries_per_request) n
  end.

(** The body a successful fetch delivers: a response that is [ok] and
    decodes. *)
Definition fetched_body (fetched : http_result) : option json :=
  match fetched with
  | Responded res => if ok res then body res else None
  | Failed _ => None
  end.

(** The "not found" failure: a response with status 404 whose JSON body is an
    object with [error] equal to ["Not Found"], whether [raise_for_status]
    or the transport raised for it. *)
Definition not_found_response (r : response) : bool :=
  bool_decide (status_code r = 404) &&
  match body r with
  | Some (JDict fields) =>
      match fields !! "error" with
      | Some (JStr s) => bool_decide (s = "Not Found")
      | _ => false
      end
  | _ => false
  end.

Definition not_found (fetched : http_result) : bool :=
  match fetched with
  | Responded res => not_found_response res
  | Failed (Some r) => not_found_response r
  | Failed None => false
  end.

(** The offset parameter a request carries. *)
Definition req_offset (req : request) : option json :=
  req_params req !! "offset".

(** ** Time series ([filip.models.ngsi_v2.timeseries]) *)

(** Modelled from the spec: the pydantic model [AttributeValues], which is
    not among the sources; "[attrName] (string), [values] (ordered sequence
    of scalar-or-null)". *)
Record AttributeValues : Type := mkAttributeValues {
  attrName : string;
  values : list json
}.

(** Modelled from the spec: the pydantic model [TimeSeries], which is not
    among the sources; "[entityId] (optional string), [entityType] (optional
    string), [index] (ordered sequence of timestamps, one per sample),
    [attributes] (ordered sequence of AttributeValues)".  A timestamp is the
    ISO-8601 string of the body; its syntax is not checked. *)
Record TimeSeries : Type := mkTimeSeries {
  entityId : option string;
  entityType : option string;
  index : list string;
  attributes : list AttributeValues
}.

(** Modelled from the spec: the pydantic model [TimeSeriesHeader], which is
    not among the sources; "[entityId], [entityType], [index]
    (metadata-only summary: first/last timestamp)". *)
Record TimeSeriesHeader : Type := mkTimeSeriesHeader {
  header_entityId : option string;
  header_entityType : option string;
  header_index : list string
}.

(** The invariant of the data model: "every AttributeValues.values sequence
    has the same length as [index]". *)
Definition parallel (ts : TimeSeries) : Prop :=
  Forall (λ a, length (values a) = length (index ts)) (attributes ts).

(** An optional string field: absent or [null] is [None]. *)
Definition field_opt_str (v : option json) : outcome (option string) :=
  match v with
  | None | Some JNull => Return None
  | Some (JStr s) => Return (Some s)
  | Some _ => Raise ValidationError
  end.

Definition field_timestamp (j : json) : outcome string :=
  match j with
  | JStr s => Return s
  | _ => Raise ValidationError
  end.

(** The [index] field: an array of timestamps. *)
Definition field_index (v : option json) : outcome (list string) :=
  match v with
  | Some (JList items) => mapM field_timestamp items
  | _ => Raise ValidationError
  end.

(** The [values] field: an array, whose elements are kept as they are. *)
Definition field_values (v : option json) : outcome (list json) :=
  match v with
  | Some (JList items) => Return items
  | _ => Raise ValidationError
  end.

(** Modelled from the spec: the keyword constructor [AttributeValues] of
    the pydantic model, which is not among the sources; it reads [attrName]
    and [values], and a missing or ill-typed field is a validation error. *)
Definition AttributeValues_init (kwargs : gmap string json)
  : outcome AttributeValues :=
  match kwargs !! "attrName" with
  | Some (JStr name) =>
      vs ← field_values (kwargs !! "values");
      Return (mkAttributeValues name vs)
  | _ => Raise ValidationError
  end.

Definition field_attribute (j : json) : outcome AttributeValues :=
  match j with
  | JDict fields => AttributeValues_init fields
  | _ => Raise ValidationError
  end.

Definition field_attributes (v : option json) : outcome (list AttributeValues) :=
  match v with
  | Some (JList items) => mapM field_attribute items
  | _ => Raise ValidationError
  end.

(** Modelled from the spec: the keyword constructor [TimeSeries] of the
    pydantic model, which is not among the sources; "decode [index] + ...
    attributes", with the two optional identity fields; a page body "missing
    expected fields" is an error. *)
Definition TimeSeries_init (kwargs : gmap string json) : outcome TimeSeries :=
  id ← field_opt_str (kwargs !! "entityId");
  ty ← field_opt_str (kwargs !! "entityType");
  idx ← field_index (kwargs !! "index");
  atts ← field_attributes (kwargs !! "attributes");
  Return (mkTimeSeries id ty idx atts).

(** [TimeSeries.parse_obj(obj)] *)
Definition TimeSeries_parse_obj (obj : json) : outcome TimeSeries :=
  match obj with
  | JDict fields => TimeSeries_init fields
  | _ => Raise ValidationError
  end.

(** Modelled from the spec: decoding one [TimeSeriesHeader], whose pydantic
    model is not among the sources. *)
Definition TimeSeriesHeader_parse_obj (obj : json) : outcome TimeSeriesHeader :=
  match obj with
  | JDict fields =>
      id ← field_opt_str (fields !! "entityId");
      ty ← field_opt_str (fields !! "entityType");
      idx ← field_index (fields !! "index");
      Return (mkTimeSeriesHeader id ty idx)
  | _ => Raise ValidationError
  end.

(** [parse_obj_as(List[TimeSeriesHeader], obj)] *)
Definition parse_obj_as_headers (obj : json) : outcome (list TimeSeriesHeader) :=
  match obj with
  | JList items => mapM TimeSeriesHeader_parse_obj items
  | _ => Raise ValidationError
  end.

(** Modelled from the spec: [AttributeValues.extend], which is not among the
    sources; the other's [values] entries are appended. *)
Definition AttributeValues_extend (self other : AttributeValues)
  : AttributeValues :=
  mkAttributeValues (attrName self) (values self ++ values other).

(** The attribute of [atts] that matches the name [name], if any. *)
Definition matching_attribute (name : string) (atts : list AttributeValues)
  : option AttributeValues :=
  list_find (λ a, attrName a = name) atts ≫= λ p, Some p.2.

(** Modelled from the spec: [TimeSeries.extend], which is not among the
    sources; "append its [index] entries and each matching attribute's
    [values] entries to the running TimeSeries in page order.  No
    deduplication or sorting is performed", and nothing is checked.  The
    object is updated in place; every [TimeSeries] below is created by the
    method that extends it and is referenced once, so the update is a new
    value here. *)
Definition TimeSeries_extend (self other : TimeSeries) : TimeSeries :=
  mkTimeSeries (entityId self) (entityType self)
    (index self ++ index other)
    ((λ a, match matching_attribute (attrName a) (attributes other) with
           | Some b => AttributeValues_extend a b
           | None => a
           end) <$> attributes self).

(** The length of the [index] array of a page body. *)
Definition body_index_length (b : json) : option nat :=
  match b with
  | JDict fields =>
      match fields !! "index" with
      | Some (JList items) => Some (length items)
      | _ => None
      end
  | _ => None
  end.

(** The attributes of [other] cover those of [self]: every attribute name of
    [self] occurs in [other]. *)
Definition covers (other self : TimeSeries) : Prop :=
  attrName <$> attributes self ⊆ attrName <$> attributes other.

(** What the merge does at position [i] for one later page: the fragment at
    that position, if the page has one, is appended. *)
Definition extend_at (i : nat) (old : TimeSeries) (chunk : list TimeSeries)
  : TimeSeries :=
  match chunk !! i with
  | Some new => TimeSeries_extend old new
  | None => old
  end.

(** ** The query methods *)

(** [obj.get(key)]: [obj] has to be a dict. *)
Definition dict_get (obj : json) (key : string) : outcome (option json) :=
  match obj with
  | JDict fields => Return (fields !! key)
  | _ => Raise AttributeError
  end.

(** [for item in v]: a list yields its items, a dict its keys, a string its
    characters; nothing else of a decoded body can be iterated. *)
Definition iterate (v : option json) : outcome (list json) :=
  match v with
  | Some (JList items) => Return items
  | Some (JDict fields) => Return (JStr <$> (map_to_list fields).*1)
  | Some (JStr s) =>
      Return ((λ c, JStr (String c EmptyString)) <$> String.list_ascii_of_string s)
  | _ => Raise TypeError
  end.

(** The keyword arguments of a call [f(key=v, **item)]: [item] has to be a
    mapping, and a key given twice is a [TypeError]. *)
Definition kwargs_with (key : string) (v : json) (item : json)
  : outcome (gmap string json) :=
  match item with
  | JDict fields =>
      match fields !! key with
      | Some _ => Raise TypeError
      | None => Return (<[key := v]> fields)
      end
  | _ => Raise TypeError
  end.

(** [list_of_res[0]] *)
Definition first_page (list_of_res : list json) : outcome json :=
  match list_of_res with
  | first :: _ => Return first
  | [] => Raise IndexError
  end.

(** What [get_entities] forwards to [__query_builder]: [entity_type],
    [from_date], [to_date], [limit] and [offset]. *)
Definition get_entities_args (a : query_args) : query_args :=
  {| entity_id := None; options := None; entity_type := entity_type a;
     aggr_method := None; aggr_period := None;
     from_date := from_date a; to_date := to_date a; last_n := None;
     limit := limit a; offset := offset a;
     georel := None; geometry := None; coords := None; attrs := None;
     aggr_scope := None |}.

Definition get_entities_url `{Externals} (self : Client) : string :=
  urljoin (base_url self) "v2/entities".

Definition get_entities `{Externals} (self : Client) (fuel : nat)
    (a : query_args) : io (list TimeSeriesHeader) :=
  res ← query_builder self fuel (get_entities_url self) (get_entities_args a);
  io_lift (first ← first_page res; parse_obj_as_headers first).

(** [for item in list_of_res[1:]: res.extend(TimeSeries.parse_obj(item))] *)
Fixpoint extend_pages (res : TimeSeries) (items : list json)
  : outcome TimeSeries :=
  match items with
  | [] => Return res
  | item :: items =>
      other ← TimeSeries_parse_obj item;
      extend_pages (TimeSeries_extend res other) items
  end.

(** The merge of [get_entity_by_id]. *)
Definition merge_entity_by_id (list_of_res : list json) : outcome TimeSeries :=
  first ← first_page list_of_res;
  res ← TimeSeries_parse_obj first;
  extend_pages res (tail list_of_res).

(** What [get_entity_by_id] forwards: every keyword argument but
    [entity_id], which is part of the url, and [aggr_scope]. *)
Definition get_entity_by_id_args (a : query_args) : query_args :=
  {| entity_id := None; options := options a; entity_type := entity_type a;
     aggr_method := aggr_method a; aggr_period := aggr_period a;
     from_date := from_date a; to_date := to_date a; last_n := last_n a;
     limit := limit a; offset := offset a;
     georel := georel a; geometry := geometry a; coords := coords a;
     attrs := attrs a; aggr_scope := None |}.

Definition get_entity_by_id_url `{Externals} (self : Client)
    (entity_id : string) : string :=
  urljoin (base_url self) ("/v2/entities/" +:+ entity_id).

Definition get_entity_by_id `{Externals} (self : Client) (fuel : nat)
    (entity_id : string) (a : query_args) : io TimeSeries :=
  list_of_res ← query_builder self fuel (get_entity_by_id_url self entity_id)
                  (get_entity_by_id_args a);
  io_lift (merge_entity_by_id list_of_res).

(** [[TimeSeries(entityType=entity_type, **item) for item in chunk.get(key)]] *)
Definition chunk_series (key : string) (entity_type : string) (chunk : json)
  : outcome (list TimeSeries) :=
  v ← dict_get chunk key;
  items ← iterate v;
  mapM (λ item,
          kwargs ← kwargs_with "entityType" (JStr entity_type) item;
          TimeSeries_init kwargs) items.

(** [for new, old in zip(chunk, res): old.extend(new)]: the pairs of the zip
    are extended, the rest of [res] stays as it is. *)
Fixpoint extend_zip (chunk res : list TimeSeries) : list TimeSeries :=
  match chunk, res with
  | new :: chunk, old :: res => TimeSeries_extend old new :: extend_zip chunk res
  | _, _ => res
  end.

(** [for chunk in list_of_res[1:]: ...] of the by-type methods. *)
Fixpoint extend_chunks (key : string) (entity_type : string)
    (res : list TimeSeries) (chunks : list json) : outcome (list TimeSeries) :=
  match chunks with
  | [] => Return res
  | chunk :: chunks =>
      chunk ← chunk_series key entity_type chunk;
      extend_chunks key entity_type (extend_zip chunk res) chunks
  end.

(** The merge of [get_entity_by_type] ([key = "entities"]) and of
    [get_entity_values_by_type] ([key = "values"]). *)
Definition merge_by_type (key : string) (entity_type : string)
    (list_of_res : list json) : outcome (list TimeSeries) :=
  first ← first_page list_of_res;
  res ← chunk_series key entity_type first;
  extend_chunks key entity_type res (tail list_of_res).

(** What [get_entity_by_type] forwards: the type is part of the url and is
    not passed on. *)
Definition get_entity_by_type_args (a : query_args) : query_args :=
  {| entity_id := entity_id a; options := options a; entity_type := None;
     aggr_method := aggr_method a; aggr_period := aggr_period a;
     from_date := from_date a; to_date := to_date a; last_n := last_n a;
     limit := limit a; offset := offset a;
     georel := georel a; geometry := geometry a; coords := coords a;
     attrs := attrs a; aggr_scope := aggr_scope a |}.

Definition get_entity_by_type_url `{Externals} (self : Client)
    (entity_type : string) : string :=
  urljoin (base_url self) ("/v2/types/" +:+ entity_type).

Definition get_entity_by_type `{Externals} (self : Client) (fuel : nat)
    (entity_type : string) (a : query_args) : io (list TimeSeries) :=
  list_of_res ← query_builder self fuel
                  (get_entity_by_type_url self entity_type)
                  (get_entity_by_type_args a);
  io_lift (merge_by_type "entities" entity_type list_of_res).

(** What [get_entity_values_by_type] forwards: here the type is passed on as
    well. *)
Definition get_entity_values_by_type_args (entity_type : string)
    (a : query_args) : query_args :=
  {| entity_id := entity_id a; options := options a;
     entity_type := Some entity_type;
     aggr_method := aggr_method a; aggr_period := aggr_period a;
     from_date := from_date a; to_date := to_date a; last_n := last_n a;
     limit := limit a; offset := offset a;
     georel := georel a; geometry := geometry a; coords := coords a;
     attrs := attrs a; aggr_scope := aggr_scope a |}.

Definition get_entity_values_by_type_url `{Externals} (self : Client)
    (entity_type : string) : string :=
  urljoin (base_url self) ("/v2/types/" +:+ entity_type +:+ "/value").

Definition get_entity_values_by_type `{Externals} (self : Client) (fuel : nat)
    (entity_type : string) (a : query_args) : io (list TimeSeries) :=
  list_of_res ← query_builder self fuel
                  (get_entity_values_by_type_url self entity_type)
                  (get_entity_values_by_type_args entity_type a);
  io_lift (merge_by_type "values" entity_type list_of_res).

(** ** [post_subscription] *)

Module Subscription.
(** The keyword arguments of [post_subscription]. *)
Record args : Type := mkArgs {
  entity_type : option string;
  entity_id : option string;
  id_pattern : option string;
  attributes : option string;
  observed_attributes : option string;
  notified_attributes : option string;
  throttling : option Z;
  time_index_attribute : option string
}.
End Subscription.

(** The parameters of the subscription request, or the exception raised
    while they are put together.  ([.encode('utf-8')] turns the two urls into
    bytes; they are kept as strings.) *)
Definition subscription_params `{Externals} (self : Client)
    (a : Subscription.args) : outcome (gmap string json) :=
  let params : gmap string json := ∅ in
  let orion_url := urljoin CB_URL "/v2" in
  let ql_url := urljoin (base_url self) "/v2" in
  let params := <["orionUrl" := JStr orion_url]> params in
  let params := <["quantumleapUrl" := JStr ql_url]> params in
  let params := update_if "entityType" (Subscription.entity_type a) params in
  let params := update_if "entityId" (Subscription.entity_id a) params in
  let params := update_if "idPattern" (Subscription.id_pattern a) params in
  let params := update_if "attributes" (Subscription.attributes a) params in
  let params :=
    update_if "observedAttributes" (Subscription.observed_attributes a) params in
  let params :=
    update_if "notifiedAttributes" (Subscription.notified_attributes a) params in
  params ←
    match truthy_int (Subscription.throttling a) with
    | Some throttling =>
        if throttling <? 1 then Raise TypeError
        else Return (<["throttling" := JNum throttling]> params)
    | None => Return params
    end;
  let params :=
    update_if "timeIndexAttribute" (Subscription.time_index_attribute a) params in
  Return params.

(** [res = self.post(...); res.raise_for_status()], with the [except] clause
    that logs and raises again. *)
Definition send_post (self : Client) (req : request) : io () :=
  ([req],
   Some match post self req with
        | Responded res => if ok res then Return () else Raise (HTTPError res)
        | Failed r => Raise (RequestException r)
        end).

Definition post_subscription `{Externals} (self : Client)
    (a : Subscription.args) : io () :=
  let url := urljoin (base_url self) "/v2/subscribe" in
  params ← io_lift (subscription_params self a);
  send_post self (mkRequest url params).

(** ** The simple query language ([filip/core/simple_query_language.py]) *)

Inductive Operator : Type :=
| EQUAL
| UNEQUAL
| GREATER_THAN
| LESS_THAN
| GREATER_OR_EQUAL
| LESS_OR_EQUAL
| MATCH_PATTERN.

(** The member's value: the symbol (the second component of each member is
    its [__doc__]). *)
Definition Operator_value (o : Operator) : string :=
  match o with
  | EQUAL => "=="
  | UNEQUAL => "!="
  | GREATER_THAN => ">"
  | LESS_THAN => "<"
  | GREATER_OR_EQUAL => ">="
  | LESS_OR_EQUAL => "<="
  | MATCH_PATTERN => "~="
  end.

(** [list(Operator)], in the order of definition. *)
Definition Operator_members : list Operator :=
  [EQUAL; UNEQUAL; GREATER_THAN; LESS_THAN; GREATER_OR_EQUAL; LESS_OR_EQUAL;
   MATCH_PATTERN].

(** [Operator.list()] *)
Definition Operator_list : list string := Operator_value <$> Operator_members.

(** The operator argument: a plain [str], or a member of [Operator], which
    is a [str] as well (the enumeration mixes [str] in) and so is accepted
    wherever a [str] is. *)
Inductive op_arg : Type :=
| OStr (s : string)
| OMember (o : Operator).

Coercion OStr : string >-> op_arg.

#[global] Instance Operator_eq_dec : EqDecision Operator.
Proof. solve_decision. Defined.

#[global] Instance op_arg_eq_dec : EqDecision op_arg.
Proof. solve_decision. Defined.

(** The characters of the operator as a [str]: what [==], [in] and [hash]
    go by; for a member, its value. *)
Definition op_symbol (o : op_arg) : string :=
  match o with
  | OStr s => s
  | OMember m => Operator_value m
  end.

Definition Operator_name (o : Operator) : string :=
  match o with
  | EQUAL => "EQUAL"
  | UNEQUAL => "UNEQUAL"
  | GREATER_THAN => "GREATER_THAN"
  | LESS_THAN => "LESS_THAN"
  | GREATER_OR_EQUAL => "GREATER_OR_EQUAL"
  | LESS_OR_EQUAL => "LESS_OR_EQUAL"
  | MATCH_PATTERN => "MATCH_PATTERN"
  end.

(** [str(operator)]: a plain string is itself; for a member, [__str__] is
    the enumeration's and gives the qualified name. *)
Definition op_str (o : op_arg) : string :=
  match o with
  | OStr s => s
  | OMember m => "Operator." +:+ Operator_name m
  end.

(** A Python [float]: a zero, a finite value [± m * 2 ^ e], an infinity, or a
    nan.  A nan is equal to nothing, not even to itself, but a container
    holds an object once: a nan comes with the object it is. *)
Inductive pyfloat : Type :=
| FZero (negative : bool)
| FFinite (negative : bool) (m : positive) (e : Z)
| FInf (negative : bool)
| FNan (obj : nat).

#[global] Instance pyfloat_eq_dec : EqDecision pyfloat.
Proof. solve_decision. Defined.

(** A right-hand side, [Union[str, float, int]]; a [bool] is an [int]. *)
Inductive rhs : Type :=
| RStr (s : string)
| RInt (z : Z)
| RFloat (f : pyfloat)
| RBool (b : bool).

#[global] Instance rhs_eq_dec : EqDecision rhs.
Proof. solve_decision. Defined.

(** Built-ins of the interpreter whose result is not computed here: the
    [repr] of a float, and whether [float()] accepts a string that has
    characters beyond ASCII (Python admits the decimal digits and the white
    space of Unicode). *)
Class Builtins : Type := mkBuiltins {
  float_repr : pyfloat → string;
  float_accepts_unicode : string → bool
}.

(** [str(right_hand_side)] *)
Definition rhs_str `{Builtins} (r : rhs) : string :=
  match r with
  | RStr s => s
  | RInt z => pretty z
  | RFloat f => float_repr f
  | RBool true => "True"
  | RBool false => "False"
  end.

(** *** Equality of right-hand sides

    [==] and [hash] of Python: a string is equal to the same string only;
    numbers are compared by value, whatever their type, so that [1], [1.0]
    and [True] are equal.  [value_key] gives equal keys to equal values. *)
Inductive value_key : Type :=
| KStr (s : string)
| KNum (m e : Z)     (* the value [m * 2 ^ e], with [m] odd, or [0] *)
| KInf (negative : bool)
| KNan (obj : nat).

#[global] Instance value_key_eq_dec : EqDecision value_key.
Proof. solve_decision. Defined.

(** [m * 2 ^ e] with the factors 2 of [m] moved to the exponent. *)
Fixpoint reduce (m : positive) (e : Z) : positive * Z :=
  match m with
  | xO m' => reduce m' (e + 1)
  | _ => (m, e)
  end.

Definition num_key (negative : bool) (m : positive) (e : Z) : value_key :=
  let '(m', e') := reduce m e in
  KNum (if negative then Z.neg m' else Z.pos m') e'.

Definition int_key (z : Z) : value_key :=
  match z with
  | Z0 => KNum 0 0
  | Z.pos p => num_key false p 0
  | Z.neg p => num_key true p 0
  end.

Definition rhs_key (r : rhs) : value_key :=
  match r with
  | RStr s => KStr s
  | RInt z => int_key z
  | RFloat (FZero _) => KNum 0 0
  | RFloat (FFinite negative m e) => num_key negative m e
  | RFloat (FInf negative) => KInf negative
  | RFloat (FNan obj) => KNan obj
  | RBool b => int_key (if b then 1 else 0)
  end.

(** *** [float()]

    Python's conversion accepts, between optional white space, an optional
    sign followed by [inf], [infinity] or [nan] in any case, or by a decimal
    number with an optional exponent, where groups of digits may have single
    underscores between digits.  This is the grammar for a string of ASCII
    characters. *)

Definition is_digit (c : ascii) : bool :=
  (48 <=? N_of_ascii c)%N && (N_of_ascii c <=? 57)%N.

(** The white space that is skipped on both sides: tab to carriage return,
    and the blank. *)
Definition is_space (c : ascii) : bool :=
  ((9 <=? N_of_ascii c)%N && (N_of_ascii c <=? 13)%N)
  || (N_of_ascii c =? 32)%N.

Definition lower (c : ascii) : ascii :=
  if (65 <=? N_of_ascii c)%N && (N_of_ascii c <=? 90)%N
  then ascii_of_N (N_of_ascii c + 32)
  else c.

Fixpoint drop_spaces (l : list ascii) : list ascii :=
  match l with
  | c :: l' => if is_space c then drop_spaces l' else l
  | [] => []
  end.

Definition strip (l : list ascii) : list ascii :=
  reverse (drop_spaces (reverse (drop_spaces l))).

(** After a digit: more digits, each possibly after one underscore; what is
    left is returned. *)
Fixpoint digits_rest (l : list ascii) : list ascii :=
  match l with
  | c :: l' =>
      if is_digit c then digits_rest l'
      else if decide (c = "_"%char) then
        match l' with
        | d :: l'' => if is_digit d then digits_rest l'' else l
        | [] => l
        end
      else l
  | [] => []
  end.

(** [digitpart ::= digit (["_"] digit)*] *)
Definition digitpart (l : list ascii) : option (list ascii) :=
  match l with
  | c :: l' => if is_digit c then Some (digits_rest l') else None
  | [] => None
  end.

Definition opt_sign (l : list ascii) : list ascii :=
  match l with
  | c :: l' => if decide (c = "+"%char ∨ c = "-"%char) then l' else l
  | [] => []
  end.

(** [number ::= [digitpart] "." digitpart | digitpart ["."]] *)
Definition number (l : list ascii) : option (list ascii) :=
  match digitpart l with
  | Some rest =>
      match rest with
      | c :: rest' =>
          if decide (c = "."%char) then
            match digitpart rest' with
            | Some rest'' => Some rest''
            | None => Some rest'
            end
          else Some rest
      | [] => Some []
      end
  | None =>
      match l with
      | c :: l' => if decide (c = "."%char) then digitpart l' else None
      | [] => None
      end
  end.

(** [exponent ::= ("e" | "E") [sign] digitpart], or nothing *)
Definition exponent (l : list ascii) : option (list ascii) :=
  match l with
  | c :: l' =>
      if decide (lower c = "e"%char) then digitpart (opt_sign l') else Some l
  | [] => Some []
  end.

Definition ascii_float_literal (s : string) : bool :=
  let l := opt_sign (strip (String.list_ascii_of_string s)) in
  let word := String.string_of_list_ascii (lower <$> l) in
  bool_decide (word = "inf" ∨ word = "infinity" ∨ word = "nan")
  || match number l ≫= exponent with
     | Some [] => true
     | _ => false
     end.

(** A string all of whose characters are ASCII. *)
Definition is_ascii (s : string) : bool :=
  forallb (λ c, (N_of_ascii c <? 128)%N) (String.list_ascii_of_string s).

(** Whether [float()] accepts the string: for a string of ASCII characters
    the grammar above decides. *)
Definition is_float_literal `{Builtins} (s : string) : bool :=
  if is_ascii s then ascii_float_literal s else float_accepts_unicode s.

(** [float(right_hand_side)], for what it raises: [ValueError] for a string
    that is no number, [OverflowError] for an integer that rounds to no
    finite double; a float and a [bool] are converted without more ado. *)
Definition float `{Builtins} (r : rhs) : outcome () :=
  match r with
  | RStr s => if is_float_literal s then Return () else Raise ValueError
  | RInt z =>
      if Z.abs z <? 2 ^ 1024 - 2 ^ 970 then Return () else Raise OverflowError
  | RFloat _ => Return ()
  | RBool _ => Return ()
  end.

(** *** [Statement] *)

(** The tuple [(left_hand_side, operator, right_hand_side)]. *)
Record Statement : Type := mkStatement {
  left_hand_side : string;
  operator : op_arg;
  right_hand_side : rhs
}.

#[global] Instance Statement_eq_dec : EqDecision Statement.
Proof. solve_decision. Defined.

(** [Statement.__new__].  [in] compares with [==], for which a member of
    [Operator] and a plain string count by their characters. *)
Definition Statement_new `{Builtins} (left_hand_side : string)
    (operator : op_arg) (right_hand_side : rhs) : outcome Statement :=
  if decide (op_symbol operator ∈ Operator_list) then
    if decide (op_symbol operator
               ∈ Operator_value <$> [EQUAL; UNEQUAL; MATCH_PATTERN])
    then Return (mkStatement left_hand_side operator right_hand_side)
    else
      _ ← float right_hand_side;
      Return (mkStatement left_hand_side operator right_hand_side)
  else Raise AssertionError.

(** [Statement.__str__]: [str] of each of the three items, joined. *)
Definition Statement_str `{Builtins} (st : Statement) : string :=
  left_hand_side st +:+ op_str (operator st) +:+ rhs_str (right_hand_side st).

(** What [==] and [hash] of the tuple go by: two statements are equal for
    Python exactly when their keys are. *)
Definition Statement_key (st : Statement) : string * string * value_key :=
  (left_hand_side st, op_symbol (operator st), rhs_key (right_hand_side st)).

(** *** [create_query] *)

(** An element of the argument list: a [Statement], or a 3-tuple. *)
Inductive statement_arg : Type :=
| AStatement (st : Statement)
| ATuple (left_hand_side : string) (operator : op_arg) (right_hand_side : rhs).

(** The argument: a list, or a single element. *)
Inductive statements_arg : Type :=
| AList (l : list statement_arg)
| ASingle (x : statement_arg).

(** The body of the [for] loop: an element that is no [Statement] is
    replaced by the [Statement] built from its three components. *)
Definition coerce `{Builtins} (x : statement_arg) : outcome Statement :=
  match x with
  | AStatement st => Return st
  | ATuple l o r => Statement_new l o r
  end.

(** [create_query].  The order in which a Python [set] is iterated is not
    specified: [set_order] gives, for the list a set is built from, the order
    in which [set(statements)] yields its elements. *)
Definition create_query `{Builtins}
    (set_order : list Statement → list Statement)
    (statements : statements_arg) : outcome string :=
  let statements :=
    match statements with
    | AList l => l
    | ASingle x => [x]
    end in
  statements ← mapM coerce statements;
  let statements := set_order statements in
  Return (String.concat ";" (Statement_str <$> statements)).

(** The elements of [set(l)]: the list is added element by element, and an
    element equal to one that is in the set already is not added, so of equal
    elements the first stays. *)
Fixpoint py_set (l : list Statement) : list Statement :=
  match l with
  | [] => []
  | x :: l =>
      x :: filter (λ y, Statement_key y ≠ Statement_key x) (py_set l)
  end.

(** What a [set] is: the elements of [py_set], in some order. *)
Definition is_set_order (set_order : list Statement → list Statement) : Prop :=
  ∀ l, set_order l ≡ₚ py_set l.

(** ** Sample data

    A client whose service holds a list of page bodies: the request with
    offset [5 * i] is answered with the [i]-th body, every other request with
    [otherwise]. *)

Definition sample_externals : Externals :=
  {| urljoin := λ base url, base +:+ url;
     CB_URL := "http://orion:1026";
     AggrMethod := λ s,
       if decide (s ∈ ["count"; "sum"; "avg"; "min"; "max"]) then Some s else None;
     AggrPeriod := λ s,
       if decide (s ∈ ["year"; "month"; "day"; "hour"; "minute"; "second"])
       then Some s else None;
     AggrScope := λ s, None |}.

Definition paged_service (pages : list json) (otherwise : http_result)
    (req : request) : http_result :=
  match req_params req !! "offset" with
  | Some (JNum o) =>
      if bool_decide (0 ≤ o ∧ o mod max_entries_per_request = 0) then
        match pages !! Z.to_nat (o / max_entries_per_request) with
        | Some b => Responded (mkResponse 200 (Some b))
        | None => otherwise
        end
      else otherwise
  | _ => otherwise
  end.

Definition sample_client (pages : list json) (otherwise : http_result)
  : Client :=
  {| base_url := "http://quantumleap:8668";
     get := paged_service pages otherwise;
     post := λ _, Responded (mkResponse 201 None) |}.

Definition response_not_found : response :=
  mkResponse 404 (Some (JDict {[ "error" := JStr "Not Found" ]})).

(** A service that answers every request with the same body. *)
Definition constant_client (b : json) : Client :=
  {| base_url := "http://quantumleap:8668";
     get := λ _, Responded (mkResponse 200 (Some b));
     post := λ _, Responded (mkResponse 201 None) |}.

(** No keyword argument given. *)
Definition no_args : query_args :=
  {| entity_id := None; options := None; entity_type := None;
     aggr_method := None; aggr_period := None; from_date := None;
     to_date := None; last_n := None; limit := None; offset := None;
     georel := None; geometry := None; coords := None; attrs := None;
     aggr_scope := None |}.

(** Only [limit] given. *)
Definition limit_args (l : Z) : query_args :=
  {| entity_id := None; options := None; entity_type := None;
     aggr_method := None; aggr_period := None; from_date := None;
     to_date := None; last_n := None; limit := Some l; offset := None;
     georel := None; geometry := None; coords := None; attrs := None;
     aggr_scope := None |}.

(** A page body of [get_entities]: one header. *)
Definition sample_header (id : string) : json :=
  JList [JDict {[ "entityId" := JStr id; "entityType" := JStr "Room";
                  "index" := JList [JStr "2024-01-01T00:00:00"] ]}].

(** A page body of a single-entity query: the samples of one attribute. *)
Definition sample_page (id : string) (samples : list (string * Z)) : json :=
  JDict {[ "entityId" := JStr id;
           "index" := JList (JStr <$> samples.*1);
           "attributes" :=
             JList [JDict {[ "attrName" := JStr "temperature";
                             "values" := JList (JNum <$> samples.*2) ]}] ]}.

(** What [sample_page] decodes to. *)
Definition sample_series (id : string) (samples : list (string * Z))
  : TimeSeries :=
  {| entityId := Some id; entityType := None; index := samples.*1;
     attributes := [mkAttributeValues "temperature" (JNum <$> samples.*2)] |}.

(** A page body of a single-entity query with two attributes: the samples of
    [temperature] and of [humidity]. *)
Definition sample_climate_page (id : string) (samples : list (string * Z * Z))
  : json :=
  JDict {[ "entityId" := JStr id;
           "index" := JList (JStr <$> samples.*1.*1);
           "attributes" :=
             JList [JDict {[ "attrName" := JStr "temperature";
                             "values" := JList (JNum <$> samples.*1.*2) ]};
                    JDict {[ "attrName" := JStr "humidity";
                             "values" := JList (JNum <$> samples.*2) ]}] ]}.

(** A page body of a by-type query: the fragments under [key]. *)
Definition sample_chunk (key : string) (fragments : list json) : json :=
  JDict {[ key := JList fragments ]}.

(** What a fragment [sample_page id samples] of a by-type query for the type
    [Room] decodes to. *)
Definition sample_room (id : string) (samples : list (string * Z))
  : TimeSeries :=
  {| entityId := Some id; entityType := Some "Room"; index := samples.*1;
     attributes := [mkAttributeValues "temperature" (JNum <$> samples.*2)] |}.

(** Only [throttling] given. *)
Definition throttling_args (t : Z) : Subscription.args :=
  {| Subscription.entity_type := None; Subscription.entity_id := None;
     Subscription.id_pattern := None; Subscription.attributes := None;
     Subscription.observed_attributes := None;
     Subscription.notified_attributes := None;
     Subscription.throttling := Some t;
     Subscription.time_index_attribute := None |}.

(** ** [get_entity_values_by_id] *)

(** [TimeSeries(entityId=entity_id, **item)] *)
Definition values_series (entity_id : string) (item : json)
  : outcome TimeSeries :=
  kwargs ← kwargs_with "entityId" (JStr entity_id) item;
  TimeSeries_init kwargs.

(** [for item in list_of_res[1:]: res.extend(TimeSeries(entityId=entity_id, **item))] *)
Fixpoint extend_values_pages (entity_id : string) (res : TimeSeries)
    (items : list json) : outcome TimeSeries :=
  match items with
  | [] => Return res
  | item :: items =>
      other ← values_series entity_id item;
      extend_values_pages entity_id (TimeSeries_extend res other) items
  end.

(** The merge of [get_entity_values_by_id]. *)
Definition merge_entity_values_by_id (entity_id : string)
    (list_of_res : list json) : outcome TimeSeries :=
  first ← first_page list_of_res;
  res ← values_series entity_id first;
  extend_values_pages entity_id res (tail list_of_res).

(** What [get_entity_values_by_id] forwards: the same arguments as
    [get_entity_by_id]. *)
Definition get_entity_values_by_id_args (a : query_args) : query_args :=
  {| entity_id := None; options := options a; entity_type := entity_type a;
     aggr_method := aggr_method a; aggr_period := aggr_period a;
     from_date := from_date a; to_date := to_date a; last_n := last_n a;
     limit := limit a; offset := offset a;
     georel := georel a; geometry := geometry a; coords := coords a;
     attrs := attrs a; aggr_scope := None |}.

Definition get_entity_values_by_id_url `{Externals} (self : Client)
    (entity_id : string) : string :=
  urljoin (base_url self) ("/v2/entities/" +:+ entity_id +:+ "/value").

Definition get_entity_values_by_id `{Externals} (self : Client) (fuel : nat)
    (entity_id : string) (a : query_args) : io TimeSeries :=
  list_of_res ← query_builder self fuel
                  (get_entity_values_by_id_url self entity_id)
                  (get_entity_values_by_id_args a);
  io_lift (merge_entity_values_by_id entity_id list_of_res).

(** ** Further vocabulary *)

(** The number of pages between [start] and the limit [l]: the least [n] with
    [l ≤ start + 5 * n]. *)
Definition pages_needed (start l : Z) : nat :=
  Z.to_nat ((l - start + (max_entries_per_request - 1))
            / max_entries_per_request).

(** The [limit] parameter of a page request. *)
Definition page_limit (limit : option Z) : Z :=
  match limit with
  | Some l => Z.min l max_entries_per_request
  | None => max_entries_per_request
  end.

(** An enumeration argument that is given and is no value of the
    enumeration [E]. *)
Definition rejected (E : string → option string) (v : option string) : Prop :=
  ∃ s, truthy_str v = Some s ∧ E s = None.

(** A fragment that can be passed as keyword arguments next to [key]: a dict
    without that key. *)
Definition keyword_free (key : string) (item : json) : Prop :=
  ∃ fields, item = JDict fields ∧ fields !! key = None.

(** The fragments of a page body of a by-type query: what the comprehension
    iterates over, [chunk.get(key)]. *)
Definition page_fragments (key : string) (chunk : json)
  : outcome (list json) :=
  v ← dict_get chunk key;
  iterate v.

(** A service that answers every request with the same failure. *)
Definition failing_client (failure : http_result) : Client :=
  {| base_url := "http://quantumleap:8668";
     get := λ _, failure;
     post := λ _, failure |}.

(** Only [limit] and [offset] given. *)
Definition range_args (l start : Z) : query_args :=
  {| entity_id := None; options := None; entity_type := None;
     aggr_method := None; aggr_period := None; from_date := None;
     to_date := None; last_n := None; limit := Some l; offset := Some start;
     georel := None; geometry := None; coords := None; attrs := None;
     aggr_scope := None |}.

(** Only [aggr_method] given. *)
Definition aggr_method_args (m : string) : query_args :=
  {| entity_id := None; options := None; entity_type := None;
     aggr_method := Some m; aggr_period := None; from_date := None;
     to_date := None; last_n := None; limit := None; offset := None;
     georel := None; geometry := None; coords := None; attrs := None;
     aggr_scope := None |}.

(** A stand-in for the built-ins: [repr] as it is for the zeros, the
    infinities, nan and the whole numbers below [10 ^ 16] (other floats do
    not occur in the samples), and a [float()] that accepts no string with
    characters beyond ASCII. *)
Definition sample_builtins : Builtins :=
  {| float_repr := λ f,
       match f with
       | FZero negative => if negative then "-0.0" else "0.0"
       | FInf negative => if negative then "-inf" else "inf"
       | FNan _ => "nan"
       | FFinite negative m e =>
           (if negative then "-" else "")
           +:+ pretty (Z.pos m * 2 ^ e) +:+ ".0"
       end;
     float_accepts_unicode := λ _, false |}.

(** * Properties *)

(** ** The page loop *)

Section page_loop.
Context (self : Client) (url : string) (limit : option Z).

Lemma page_request_insert params x offset :
  page_request url (<["offset" := x]> params) offset
  = page_request url params offset.
Proof. unfold page_request. by rewrite insert_insert_eq. Qed.

(** An offset left in [params] by an earlier pass is overwritten. *)
Lemma page_loop_insert fuel params x offset list_of_res :
  page_loop self url limit fuel (<["offset" := x]> params) offset list_of_res
  = page_loop self url limit fuel params offset list_of_res.
Proof.
  destruct fuel as [|fuel]; simpl; [done|].
  by rewrite insert_insert_eq.
Qed.

(** One pass, in terms of [page_request]. *)
Lemma page_loop_step fuel params offset list_of_res :
  below_limit offset limit = true →
  page_loop self url limit (S fuel) params offset list_of_res
  = match try_block (get self (page_request url params offset)) list_of_res with
    | Continue list_of_res' =>
        let '(sent, r) :=
          page_loop self url limit fuel params
            (offset + max_entries_per_request) list_of_res' in
        (page_request url params offset :: sent, r)
    | Break => ([page_request url params offset], Some (Return list_of_res))
    | Throw e => ([page_request url params offset], Some (Raise e))
    end.
Proof.
  intros Hlt. simpl. rewrite Hlt. fold (page_request url params offset).
  destruct (try_block _ _); [|done..].
  by rewrite page_loop_insert.
Qed.

Lemma page_loop_stop fuel params offset list_of_res :
  below_limit offset limit = false →
  page_loop self url limit fuel params offset list_of_res
  = ([], Some (Return list_of_res)).
Proof. intros Hge. destruct fuel; simpl; by rewrite Hge. Qed.

Lemma try_block_fetched fetched b list_of_res :
  fetched_body fetched = Some b →
  try_block fetched list_of_res = Continue (list_of_res ++ [b]).
Proof.
  destruct fetched as [res|r]; simpl; [|done].
  destruct (ok res); [|done]. by intros ->.
Qed.

(** While the pages succeed and lie below the limit, the loop collects
    their bodies and goes on. *)
Lemma page_loop_prefix bodies : ∀ fuel params offset list_of_res,
  Forall2 (λ o b, fetched_body (get self (page_request url params o)) = Some b)
    (page_offsets offset (length bodies)) bodies →
  Forall (λ o, below_limit o limit = true)
    (page_offsets offset (length bodies)) →
  page_loop self url limit (length bodies + fuel) params offset list_of_res
  = let '(sent, r) :=
      page_loop self url limit fuel params
        (offset + max_entries_per_request * Z.of_nat (length bodies))
        (list_of_res ++ bodies) in
    ((page_request url params <$> page_offsets offset (length bodies)) ++ sent, r).
Proof.
  induction bodies as [|b bodies IH]; intros fuel params offset acc Hok Hlt.
  - simpl. rewrite Z.mul_0_r, Z.add_0_r, app_nil_r.
    by destruct (page_loop _ _ _ _ _ _ _).
  - simpl length in *. simpl page_offsets in *.
    apply Forall2_cons_1 in Hok as [Hb Hok].
    apply Forall_cons_1 in Hlt as [Hlt0 Hlt].
    change (S (length bodies) + fuel)%nat with (S (length bodies + fuel)).
    rewrite page_loop_step by done.
    rewrite (try_block_fetched _ b) by done.
    rewrite IH by done.
    replace (offset + max_entries_per_request
             + max_entries_per_request * Z.of_nat (length bodies))
      with (offset + max_entries_per_request * Z.of_nat (S (length bodies)))
      by lia.
    rewrite <-(assoc_L (++) acc [b] bodies). simpl.
    by destruct (page_loop _ _ _ _ _ _ _).
Qed.
End page_loop.

Lemma page_offsets_length start n : length (page_offsets start n) = n.
Proof. revert start. induction n as [|n IH]; intros; simpl; [done|]. by rewrite IH. Qed.

Lemma page_offsets_snoc start n :
  page_offsets start (S n)
  = page_offsets start n ++ [start + max_entries_per_request * Z.of_nat n].
Proof.
  revert start. induction n as [|n IH]; intros start.
  - simpl. by rewrite Z.mul_0_r, Z.add_0_r.
  - change (page_offsets start (S (S n)))
      with (start :: page_offsets (start + max_entries_per_request) (S n)).
    rewrite IH. simpl. do 3 f_equal. lia.
Qed.

Lemma page_offsets_seq start n :
  page_offsets start n
  = (λ i : nat, start + max_entries_per_request * Z.of_nat i) <$> seq 0 n.
Proof.
  induction n as [|n IH]; [done|].
  rewrite page_offsets_snoc, IH, seq_S, fmap_app. done.
Qed.

Lemma query_builder_params `{Externals} self fuel url a params :
  build_params a = Return params →
  query_builder self fuel url a
  = page_loop self url (limit a) fuel params (default 0 (offset a)) [].
Proof.
  intros Hp. unfold query_builder, mbind, io_mbind, io_bind, io_lift.
  rewrite Hp. by destruct (page_loop _ _ _ _ _ _ _).
Qed.

(** What the [try] block does with a fetch that delivers no body: the
    "not found" response ends the loop when something was collected, anything
    else raises. *)
Lemma try_block_failure fetched list_of_res :
  fetched_body fetched = None →
  (not_found fetched = true → list_of_res ≠ [] →
   try_block fetched list_of_res = Break)
  ∧ (not_found fetched = false ∨ list_of_res = [] →
     ∃ e, try_block fetched list_of_res = Throw e).
Proof.
  assert (Hlen : ∀ l : list json, l ≠ [] → bool_decide (0 < length l)%nat = true).
  { intros [|x l] ?; [done|]. apply bool_decide_eq_true. simpl. lia. }
  assert (Hclause : ∀ err r,
    (not_found_response r = true → list_of_res ≠ [] →
     except_clause err (Some r) list_of_res = Break)
    ∧ (not_found_response r = false ∨ list_of_res = [] →
       ∃ e, except_clause err (Some r) list_of_res = Throw e)).
  { intros err r. unfold except_clause, not_found_response, error_is_not_found.
    destruct (bool_decide (status_code r = 404)); simpl; [|naive_solver].
    destruct (body r) as [[| | | | |fields]|]; simpl; try naive_solver.
    destruct (fields !! "error") as [[| | |s| |]|]; simpl; try naive_solver.
    destruct (bool_decide (s = "Not Found")); simpl; [|naive_solver].
    split.
    - intros _ Hne. by rewrite Hlen.
    - intros [?| ->]; [done|]. simpl. eauto. }
  destruct fetched as [res|[r|]]; simpl.
  - destruct (ok res) eqn:Hok.
    + intros ->. unfold not_found_response.
      assert (bool_decide (status_code res = 404) = false) as ->.
      { apply bool_decide_eq_false. intros Hs. unfold ok in Hok.
        rewrite Hs in Hok. done. }
      simpl. naive_solver.
    + intros _. apply Hclause.
  - intros _. apply Hclause.
  - intros _. naive_solver.
Qed.

(** C1. In every paginated query, when the pages before succeed and the next
    page (still below the limit) fails: a "not found" failure (status 404,
    JSON body with [error] equal to ["Not Found"]) after at least one
    collected page ends the loop without raising, and [__query_builder]
    returns the bodies collected so far; the same failure on the first page,
    and any other failure on any page, raises.  In each case the requests
    sent are those of the pages up to the failing one. *)
Theorem not_found_ends_pagination `{Externals} (self : Client) (url : string)
    (a : query_args) (params : gmap string json) (bodies : list json)
    (fuel : nat) :
  let start := default 0 (offset a) in
  let failing :=
    get self (page_request url params
                (start + max_entries_per_request * Z.of_nat (length bodies))) in
  let sent := page_request url params <$> page_offsets start (S (length bodies)) in
  build_params a = Return params →
  Forall2 (λ o b, fetched_body (get self (page_request url params o)) = Some b)
    (page_offsets start (length bodies)) bodies →
  Forall (λ o, below_limit o (limit a) = true)
    (page_offsets start (S (length bodies))) →
  fetched_body failing = None →
  (length bodies < fuel)%nat →
  (not_found failing = true → bodies ≠ [] →
   query_builder self fuel url a = (sent, Some (Return bodies)))
  ∧ (not_found failing = false ∨ bodies = [] →
     ∃ e, query_builder self fuel url a = (sent, Some (Raise e))).
Proof.
  intros start failing sent Hp Hok Hlt Hfail Hfuel.
  rewrite (query_builder_params _ _ _ _ params) by done. fold start.
  subst sent. rewrite page_offsets_snoc in Hlt |- *.
  rewrite Forall_app, Forall_singleton in Hlt. destruct Hlt as [Hlt Hlast].
  replace fuel with (length bodies + S (fuel - S (length bodies)))%nat by lia.
  rewrite page_loop_prefix by done.
  rewrite page_loop_step by done. fold failing. simpl app at 1 2.
  rewrite fmap_app. simpl.
  destruct (try_block_failure failing bodies Hfail) as [Hbreak Hthrow].
  split.
  - intros Hnf Hne. by rewrite Hbreak.
  - intros Hcase. destruct (Hthrow Hcase) as [e ->]. eauto.
Qed.

(** The witness of C1: two pages, then "not found"; the query returns the
    two bodies. *)
Lemma not_found_ends_pagination_witness :
  let self := sample_client [JStr "page 0"; JStr "page 1"]
                (Responded response_not_found) in
  query_builder (H := sample_externals) self 3 "url" no_args
  = (page_request "url" {[ "limit" := JNum 5 ]} <$> [0; 5; 10],
     Some (Return [JStr "page 0"; JStr "page 1"])).
Proof.
  intros self.
  refine (proj1 (not_found_ends_pagination (H := sample_externals) self "url"
                   no_args {[ "limit" := JNum 5 ]}
                   [JStr "page 0"; JStr "page 1"] 3 _ _ _ _ _) _ _).
  - reflexivity.
  - repeat constructor.
  - repeat constructor.
  - reflexivity.
  - simpl. lia.
  - reflexivity.
  - discriminate.
Defined.

(** "Not found" on the first page: nothing was collected, the [HTTPError]
    is raised. *)
Example not_found_on_first_page :
  query_builder (H := sample_externals)
    (sample_client [] (Responded response_not_found)) 3 "url" no_args
  = ([page_request "url" {[ "limit" := JNum 5 ]} 0],
     Some (Raise (HTTPError response_not_found))).
Proof. reflexivity. Qed.

(** A failure that is not "not found" after a collected page: raised. *)
Example server_error_on_second_page :
  query_builder (H := sample_externals)
    (sample_client [JStr "page 0"] (Responded (mkResponse 500 None))) 3 "url"
    no_args
  = (page_request "url" {[ "limit" := JNum 5 ]} <$> [0; 5],
     Some (Raise (HTTPError (mkResponse 500 None)))).
Proof. reflexivity. Qed.

(** Without a limit and with a service that always answers, the loop does
    not end: whatever the fuel, it runs out. *)
Example unbounded_query_runs_on :
  (query_builder (H := sample_externals) (constant_client (JList [])) 4 "url"
     no_args).2 = None.
Proof. reflexivity. Qed.

(** When every page succeeds, a limit that [n] pages reach gives [n]
    requests. *)
Lemma query_builder_pages `{Externals} (self : Client) (url : string)
    (a : query_args) (params : gmap string json) (n : nat) (l : Z)
    (fuel : nat) :
  build_params a = Return params →
  default 0 (offset a) = 0 →
  limit a = Some l →
  l ≤ max_entries_per_request * Z.of_nat n →
  (n ≠ 0%nat → max_entries_per_request * (Z.of_nat n - 1) < l) →
  (∀ req, is_Some (fetched_body (get self req))) →
  (n ≤ fuel)%nat →
  ∃ pages,
    length pages = n ∧
    query_builder self fuel url a
    = (page_request url params <$> page_offsets 0 n, Some (Return pages)).
Proof.
  intros Hp Hstart Hl Hle Hgt Hall Hfuel.
  assert (∃ pages, length pages = n ∧
    Forall2 (λ o b, fetched_body (get self (page_request url params o)) = Some b)
      (page_offsets 0 n) pages) as (pages & Hlen & Hok).
  { generalize 0. clear -Hall. induction n as [|n IH]; intros start.
    - exists []. by split; [|constructor].
    - destruct (Hall (page_request url params start)) as [b Hb].
      destruct (IH (start + max_entries_per_request)) as (bs & Hlen & Hbs).
      exists (b :: bs). split; [simpl; congruence|]. by constructor. }
  exists pages. split; [done|].
  rewrite (query_builder_params _ _ _ _ params), Hstart, Hl by done.
  replace fuel with (length pages + (fuel - n))%nat by lia.
  rewrite page_loop_prefix; rewrite Hlen; [|done|].
  - rewrite page_loop_stop; [by rewrite app_nil_r|].
    simpl. apply Z.ltb_ge. lia.
  - rewrite page_offsets_seq. apply Forall_fmap, Forall_forall.
    intros i Hi%elem_of_seq. simpl. apply Z.ltb_lt.
    unfold max_entries_per_request in *. lia.
Qed.

(** C2. For a limit [k * 5 + r] with [0 < r ≤ 5] ([5] being the page size),
    starting offset 0 and every page fetch succeeding, [__query_builder]
    issues exactly [k + 1] requests, whose [offset] parameters are
    [0, 5, ..., k * 5] in that order (and which otherwise carry the
    parameters built before the loop), and returns [k + 1] bodies. *)
Theorem limit_gives_pages `{Externals} (self : Client) (url : string)
    (a : query_args) (params : gmap string json) (k : nat) (r : Z)
    (fuel : nat) :
  build_params a = Return params →
  default 0 (offset a) = 0 →
  limit a = Some (Z.of_nat k * max_entries_per_request + r) →
  0 < r ≤ max_entries_per_request →
  (∀ req, is_Some (fetched_body (get self req))) →
  (k < fuel)%nat →
  ∃ sent pages,
    query_builder self fuel url a = (sent, Some (Return pages)) ∧
    length sent = S k ∧
    length pages = S k ∧
    sent = (λ i : nat, page_request url params
                         (Z.of_nat i * max_entries_per_request)) <$> seq 0 (S k) ∧
    req_offset <$> sent
    = (λ i : nat, Some (JNum (Z.of_nat i * max_entries_per_request)))
        <$> seq 0 (S k).
Proof.
  intros Hp Hstart Hl Hr Hall Hfuel.
  destruct (query_builder_pages self url a params (S k) _ fuel Hp Hstart Hl)
    as (pages & Hlen & Hrun); try done.
  { unfold max_entries_per_request in *. lia. }
  { unfold max_entries_per_request in *. lia. }
  assert (Hsent : page_request url params <$> page_offsets 0 (S k)
    = (λ i : nat, page_request url params
                    (Z.of_nat i * max_entries_per_request)) <$> seq 0 (S k)).
  { rewrite page_offsets_seq, <-list_fmap_compose. apply list_fmap_ext.
    intros _ i _. simpl. f_equal. lia. }
  eexists _, pages. split_and!; [done| |done|done|].
  - by rewrite length_fmap, page_offsets_length.
  - rewrite Hsent, <-list_fmap_compose. apply list_fmap_ext.
    intros _ i _. unfold req_offset. simpl. apply lookup_insert_eq.
Qed.

(** The witness of C2: limit 12 = 2 * 5 + 2 gives the offsets 0, 5, 10. *)
Lemma limit_gives_pages_witness :
  ∃ sent pages,
    query_builder (H := sample_externals) (constant_client (JList [])) 3 "url"
      (limit_args 12)
    = (sent, Some (Return pages)) ∧
    length sent = 3%nat ∧
    length pages = 3%nat ∧
    sent = (λ i : nat, page_request "url" {[ "limit" := JNum 5 ]}
                         (Z.of_nat i * max_entries_per_request)) <$> seq 0 3 ∧
    req_offset <$> sent
    = (λ i : nat, Some (JNum (Z.of_nat i * max_entries_per_request)))
        <$> seq 0 3.
Proof.
  apply (limit_gives_pages (H := sample_externals) (constant_client (JList []))
           "url" (limit_args 12) {[ "limit" := JNum 5 ]} 2 2 3).
  - reflexivity.
  - reflexivity.
  - reflexivity.
  - unfold max_entries_per_request. lia.
  - intros req. simpl. eauto.
  - lia.
Defined.

(** C3, as stated, fails for the limit 0: the loop condition [offset < limit]
    is false at once, and no request is issued. *)
Lemma limit_zero_no_request :
  (∀ req, is_Some (fetched_body (get (constant_client (JList [])) req)))
  ∧ 0 ≤ 0 ≤ max_entries_per_request
  ∧ query_builder (H := sample_externals) (constant_client (JList [])) 1 "url"
      (limit_args 0)
    = ([], Some (Return [])).
Proof.
  split; [|split].
  - intros req. simpl. eauto.
  - unfold max_entries_per_request. lia.
  - reflexivity.
Qed.

(** C3, amended. For every limit [l] with [0 < l ≤ 5], starting offset 0 and
    the fetch succeeding, the page loop issues exactly one request, the one
    with offset 0, and returns its body. *)
Theorem small_limit_one_page `{Externals} (self : Client) (url : string)
    (a : query_args) (params : gmap string json) (l : Z) (fuel : nat) :
  build_params a = Return params →
  default 0 (offset a) = 0 →
  limit a = Some l →
  0 < l ≤ max_entries_per_request →
  (∀ req, is_Some (fetched_body (get self req))) →
  (0 < fuel)%nat →
  ∃ page,
    fetched_body (get self (page_request url params 0)) = Some page ∧
    query_builder self fuel url a
    = ([page_request url params 0], Some (Return [page])).
Proof.
  intros Hp Hstart Hl Hr Hall Hfuel.
  destruct (Hall (page_request url params 0)) as [page Hpage].
  exists page. split; [done|].
  rewrite (query_builder_params _ _ _ _ params), Hstart, Hl by done.
  destruct fuel as [|fuel]; [lia|].
  rewrite page_loop_step by (simpl; apply Z.ltb_lt; lia).
  rewrite (try_block_fetched _ page) by done.
  rewrite page_loop_stop; [done|].
  simpl. apply Z.ltb_ge. lia.
Qed.

(** The witness of the amended C3: limit 3. *)
Lemma small_limit_one_page_witness :
  ∃ page,
    fetched_body (get (constant_client (JList []))
                    (page_request "url" {[ "limit" := JNum 3 ]} 0)) = Some page ∧
    query_builder (H := sample_externals) (constant_client (JList [])) 1 "url"
      (limit_args 3)
    = ([page_request "url" {[ "limit" := JNum 3 ]} 0], Some (Return [page])).
Proof.
  apply (small_limit_one_page (H := sample_externals)
           (constant_client (JList [])) "url" (limit_args 3)
           {[ "limit" := JNum 3 ]} 3 1).
  - reflexivity.
  - reflexivity.
  - reflexivity.
  - unfold max_entries_per_request. lia.
  - intros req. simpl. eauto.
  - lia.
Defined.

(** ** The query methods *)

Lemma io_bind_lift {A B} (m : io A) (f : A → outcome B) sent x :
  m = (sent, Some (Return x)) →
  (m ≫= λ y, io_lift (f y)) = (sent, Some (f x)).
Proof.
  intros ->. unfold mbind, io_mbind, io_bind, io_lift. simpl.
  by rewrite app_nil_r.
Qed.

(** C9. [get_entities] runs the whole page loop (the requests it sends are
    those of [__query_builder]), but what it returns is the first collected
    body alone, parsed as a list of headers: the bodies of the later pages do
    not enter the result, so a header that only a later page holds is not
    returned. *)
Theorem get_entities_first_page_only `{Externals} (self : Client)
    (fuel : nat) (a : query_args) (sent : list request) (first : json)
    (rest : list json) :
  query_builder self fuel (get_entities_url self) (get_entities_args a)
  = (sent, Some (Return (first :: rest))) →
  get_entities self fuel a = (sent, Some (parse_obj_as_headers first))
  ∧ ∀ headers h,
      get_entities self fuel a = (sent, Some (Return headers)) →
      h ∈ headers →
      ∃ headers0, parse_obj_as_headers first = Return headers0 ∧ h ∈ headers0.
Proof.
  intros Hrun.
  assert (Hget : get_entities self fuel a
                 = (sent, Some (parse_obj_as_headers first))).
  { unfold get_entities. by rewrite (io_bind_lift _ _ sent (first :: rest)). }
  split; [done|].
  intros headers h Hres Hh. rewrite Hget in Hres.
  exists headers. split; [congruence|done].
Qed.

(** The witness of C9: two pages are requested, the header of the second
    page is not returned. *)
Lemma get_entities_first_page_only_witness :
  let self := sample_client [sample_header "Room1"; sample_header "Room2"]
                (Responded response_not_found) in
  let sent := page_request (get_entities_url (H := sample_externals) self)
                {[ "limit" := JNum 5 ]} <$> [0; 5] in
  get_entities (H := sample_externals) self 2 (limit_args 10)
  = (sent,
     Some (Return [mkTimeSeriesHeader (Some "Room1") (Some "Room")
                     ["2024-01-01T00:00:00"]])).
Proof.
  intros self sent.
  apply (get_entities_first_page_only (H := sample_externals) self 2
           (limit_args 10) sent (sample_header "Room1") [sample_header "Room2"]).
  vm_compute. reflexivity.
Defined.

(** ** Decoding and merging *)

Lemma mapM_outcome_cons {A B} (f : A → outcome B) x l :
  mapM f (x :: l)
  = match f x with
    | Return y =>
        match mapM f l with
        | Return k => Return (y :: k)
        | Raise e => Raise e
        end
    | Raise e => Raise e
    end.
Proof. simpl. unfold mbind, outcome_bind, obind. by destruct (f x). Qed.

Lemma mapM_outcome_Forall2 {A B} (f : A → outcome B) l k :
  mapM f l = Return k ↔ Forall2 (λ x y, f x = Return y) l k.
Proof.
  revert k. induction l as [|x l IH]; intros k.
  - simpl. split.
    + intros [= <-]. constructor.
    + intros ->%Forall2_nil_inv_l. done.
  - rewrite mapM_outcome_cons. split.
    + destruct (f x) as [y|e] eqn:Hx; [|done].
      destruct (mapM f l) as [k'|e] eqn:Hl; [|done].
      intros [= <-]. constructor; [done|]. by apply IH.
    + intros (y & k' & Hy & Hk & ->)%Forall2_cons_inv_l.
      rewrite Hy. apply IH in Hk. by rewrite Hk.
Qed.

Lemma mapM_outcome_length {A B} (f : A → outcome B) l k :
  mapM f l = Return k → length k = length l.
Proof. intros H%mapM_outcome_Forall2. symmetry. by eapply Forall2_length. Qed.

Lemma outcome_bind_Return {A B} (o : outcome A) (k : A → outcome B) y :
  o ≫= k = Return y → ∃ x, o = Return x ∧ k x = Return y.
Proof. destruct o as [x|e]; [|done]. intros Hk. exists x. split; [done|exact Hk]. Qed.

Lemma TimeSeries_parse_obj_index b ts :
  TimeSeries_parse_obj b = Return ts →
  body_index_length b = Some (length (index ts)).
Proof.
  destruct b as [| | | | |fields]; try done. simpl. unfold TimeSeries_init.
  intros (id & _ & (ty & _ & (idx & Hidx & (atts & _ & [= <-])
    %outcome_bind_Return)%outcome_bind_Return)%outcome_bind_Return)
    %outcome_bind_Return.
  simpl. unfold field_index in Hidx.
  destruct (fields !! "index") as [[| | | |items|]|]; try done.
  apply mapM_outcome_length in Hidx. by rewrite Hidx.
Qed.

Lemma matching_attribute_Some name atts b :
  matching_attribute name atts = Some b → b ∈ atts ∧ attrName b = name.
Proof.
  unfold matching_attribute.
  destruct (list_find _ atts) as [[i a]|] eqn:Hfind; [|done].
  simpl. intros [= <-]. apply list_find_Some in Hfind as (Hi & Ha & _).
  split; [by eapply list_elem_of_lookup_2|done].
Qed.

Lemma matching_attribute_is_Some name atts :
  name ∈ attrName <$> atts → is_Some (matching_attribute name atts).
Proof.
  intros (b & -> & Hb)%list_elem_of_fmap. unfold matching_attribute.
  destruct (list_find_elem_of (λ a, attrName a = attrName b) atts b)
    as [[i a] ->]; [done..|]. simpl. eauto.
Qed.

Lemma TimeSeries_extend_index self other :
  index (TimeSeries_extend self other) = index self ++ index other.
Proof. done. Qed.

Lemma TimeSeries_extend_names self other :
  attrName <$> attributes (TimeSeries_extend self other)
  = attrName <$> attributes self.
Proof.
  simpl. rewrite <-list_fmap_compose. apply list_fmap_ext.
  intros _ a _. simpl. by destruct (matching_attribute _ _).
Qed.

(** Extending a series by one that is parallel too and covers its attributes
    keeps index and values parallel. *)
Lemma TimeSeries_extend_parallel self other :
  parallel self → parallel other → covers other self →
  parallel (TimeSeries_extend self other).
Proof.
  unfold parallel, covers. intros Hself Hother Hcov.
  simpl. rewrite Forall_fmap. apply Forall_forall. intros a Ha.
  rewrite Forall_forall in Hself, Hother. simpl.
  destruct (matching_attribute_is_Some (attrName a) (attributes other))
    as [b Hb].
  { apply Hcov. by apply list_elem_of_fmap_2. }
  rewrite Hb. apply matching_attribute_Some in Hb as [Hin _].
  simpl. rewrite !length_app, (Hself a Ha), (Hother b Hin). done.
Qed.

Lemma extend_pages_decoded items : ∀ res others,
  Forall2 (λ b ts, TimeSeries_parse_obj b = Return ts) items others →
  extend_pages res items = Return (foldl TimeSeries_extend res others).
Proof.
  induction items as [|item items IH]; intros res others Hdec.
  - apply Forall2_nil_inv_l in Hdec as ->. done.
  - apply Forall2_cons_inv_l in Hdec as (other & others' & Hother & Hrest & ->).
    simpl. rewrite Hother. simpl. by apply IH.
Qed.

Lemma foldl_extend_lengths others : ∀ res,
  length (index (foldl TimeSeries_extend res others))
  = (length (index res) + sum_list (length ∘ index <$> others))%nat.
Proof.
  induction others as [|other others IH]; intros res; simpl; [lia|].
  rewrite IH, TimeSeries_extend_index, length_app, <-Nat.add_assoc. done.
Qed.

Lemma foldl_extend_parallel others : ∀ res,
  parallel res → Forall parallel others →
  Forall (λ other, covers other res) others →
  parallel (foldl TimeSeries_extend res others).
Proof.
  induction others as [|other others IH]; intros res Hres Hpar Hcov; [done|].
  apply Forall_cons_1 in Hpar as [Hp Hpar].
  apply Forall_cons_1 in Hcov as [Hc Hcov].
  simpl. apply IH; [by apply TimeSeries_extend_parallel|done|].
  eapply Forall_impl; [exact Hcov|].
  intros ts. unfold covers. by rewrite TimeSeries_extend_names.
Qed.

Lemma decoded_index_lengths bodies : ∀ series lengths,
  Forall2 (λ b ts, TimeSeries_parse_obj b = Return ts) bodies series →
  Forall2 (λ b n, body_index_length b = Some n) bodies lengths →
  lengths = length ∘ index <$> series.
Proof.
  induction bodies as [|b bodies IH]; intros series lengths Hdec Hlen.
  - apply Forall2_nil_inv_l in Hdec as ->.
    by apply Forall2_nil_inv_l in Hlen as ->.
  - apply Forall2_cons_inv_l in Hdec as (ts & series' & Hts & Hdec & ->).
    apply Forall2_cons_inv_l in Hlen as (n & lengths' & Hn & Hlen & ->).
    apply TimeSeries_parse_obj_index in Hts.
    rewrite fmap_cons, <-(IH series' lengths') by done.
    simpl. congruence.
Qed.

(** C4, as stated, fails when a later page lacks an attribute of the first:
    a first page of one sample of [temperature] and [humidity], and a second
    page of one sample of [temperature] only, are merged into a series whose
    index has the length 2, the sum of the two, while the values of
    [humidity] have the length 1. *)
Lemma later_page_without_attribute :
  body_index_length
    (sample_climate_page "Room1" [("2024-01-01T00:00:00", 20, 55)]) = Some 1%nat
  ∧ body_index_length
      (sample_page "Room1" [("2024-01-01T01:00:00", 21)]) = Some 1%nat
  ∧ query_builder (H := sample_externals)
      (sample_client
         [sample_climate_page "Room1" [("2024-01-01T00:00:00", 20, 55)];
          sample_page "Room1" [("2024-01-01T01:00:00", 21)]]
         (Responded response_not_found)) 3
      (get_entity_by_id_url (H := sample_externals)
         (sample_client
            [sample_climate_page "Room1" [("2024-01-01T00:00:00", 20, 55)];
             sample_page "Room1" [("2024-01-01T01:00:00", 21)]]
            (Responded response_not_found)) "Room1")
      (get_entity_by_id_args no_args)
    = (page_request "http://quantumleap:8668/v2/entities/Room1"
         {[ "limit" := JNum 5 ]} <$> [0; 5; 10],
       Some (Return
         [sample_climate_page "Room1" [("2024-01-01T00:00:00", 20, 55)];
          sample_page "Room1" [("2024-01-01T01:00:00", 21)]]))
  ∧ ∃ res,
      get_entity_by_id (H := sample_externals)
        (sample_client
           [sample_climate_page "Room1" [("2024-01-01T00:00:00", 20, 55)];
            sample_page "Room1" [("2024-01-01T01:00:00", 21)]]
           (Responded response_not_found)) 3 "Room1" no_args
      = (page_request "http://quantumleap:8668/v2/entities/Room1"
           {[ "limit" := JNum 5 ]} <$> [0; 5; 10],
         Some (Return res))
      ∧ res = {| entityId := Some "Room1"; entityType := None;
                 index := ["2024-01-01T00:00:00"; "2024-01-01T01:00:00"];
                 attributes :=
                   [mkAttributeValues "temperature" [JNum 20; JNum 21];
                    mkAttributeValues "humidity" [JNum 55]] |}
      ∧ length (index res) = sum_list [1; 1]%nat
      ∧ ¬ Forall (λ att, length (values att) = sum_list [1; 1]%nat)
            (attributes res).
Proof.
  split_and!; [reflexivity|reflexivity|by vm_compute|].
  eexists. split_and!; [by vm_compute|reflexivity|reflexivity|].
  intros Hall. apply Forall_cons_1 in Hall as [_ Hall].
  apply Forall_cons_1 in Hall as [Hlen _]. simpl in Hlen. lia.
Qed.

(** C4, amended. When a single-entity query collects page bodies whose
    [index] arrays have the lengths [lengths], and the bodies are pages of
    one series (each decodes to a [TimeSeries] whose values are parallel to
    its index, and each later page has the attributes of the first), the
    [TimeSeries] that [get_entity_by_id] returns has an index of length
    [sum_list lengths], and the values of every attribute have that length
    too. *)
Theorem get_entity_by_id_parallel `{Externals} (self : Client) (fuel : nat)
    (entity_id : string) (a : query_args) (sent : list request)
    (list_of_res : list json) (first : TimeSeries) (others : list TimeSeries)
    (lengths : list nat) :
  query_builder self fuel (get_entity_by_id_url self entity_id)
    (get_entity_by_id_args a)
  = (sent, Some (Return list_of_res)) →
  Forall2 (λ b ts, TimeSeries_parse_obj b = Return ts) list_of_res
    (first :: others) →
  Forall2 (λ b n, body_index_length b = Some n) list_of_res lengths →
  Forall parallel (first :: others) →
  Forall (λ other, covers other first) others →
  ∃ res,
    get_entity_by_id self fuel entity_id a = (sent, Some (Return res)) ∧
    length (index res) = sum_list lengths ∧
    Forall (λ att, length (values att) = sum_list lengths) (attributes res).
Proof.
  intros Hrun Hdec Hlen Hpar Hcov.
  rewrite (decoded_index_lengths _ _ _ Hdec Hlen).
  destruct list_of_res as [|b bodies]; [by apply Forall2_nil_inv_l in Hdec|].
  apply Forall2_cons_1 in Hdec as [Hfirst Hdec].
  apply Forall_cons_1 in Hpar as [Hp Hpar].
  exists (foldl TimeSeries_extend first others).
  assert (Hindex : length (index (foldl TimeSeries_extend first others))
                   = sum_list (length ∘ index <$> first :: others)).
  { by rewrite foldl_extend_lengths. }
  split_and!.
  - unfold get_entity_by_id.
    rewrite (io_bind_lift _ _ sent (b :: bodies)) by done.
    unfold merge_entity_by_id. simpl. rewrite Hfirst. simpl.
    by rewrite (extend_pages_decoded _ _ others).
  - done.
  - rewrite <-Hindex. by apply foldl_extend_parallel.
Qed.

(** The witness of C4: pages of two samples and of one sample are merged
    into a series of three. *)
Lemma get_entity_by_id_parallel_witness :
  let p0 := [("2024-01-01T00:00:00", 20); ("2024-01-01T01:00:00", 21)] in
  let p1 := [("2024-01-01T02:00:00", 22)] in
  let self := sample_client [sample_page "Room1" p0; sample_page "Room1" p1]
                (Responded response_not_found) in
  ∃ res,
    get_entity_by_id (H := sample_externals) self 3 "Room1" no_args
    = (page_request "http://quantumleap:8668/v2/entities/Room1"
         {[ "limit" := JNum 5 ]} <$> [0; 5; 10],
       Some (Return res)) ∧
    length (index res) = sum_list [2; 1]%nat ∧
    Forall (λ att, length (values att) = sum_list [2; 1]%nat) (attributes res).
Proof.
  intros p0 p1 self.
  apply (get_entity_by_id_parallel (H := sample_externals) self 3 "Room1"
           no_args _ [sample_page "Room1" p0; sample_page "Room1" p1]
           (sample_series "Room1" p0) [sample_series "Room1" p1]).
  - vm_compute. reflexivity.
  - repeat constructor.
  - repeat constructor.
  - repeat constructor.
  - constructor; [|constructor]. intros name Hname. exact Hname.
Defined.

(** ** The positional merge of the by-type methods *)

Lemma extend_zip_length chunk : ∀ res,
  length (extend_zip chunk res) = length res.
Proof.
  induction chunk as [|new chunk IH]; intros [|old res]; simpl; try done.
  by rewrite IH.
Qed.

Lemma extend_zip_lookup chunk : ∀ res i,
  extend_zip chunk res !! i = (λ old, extend_at i old chunk) <$> res !! i.
Proof.
  induction chunk as [|new chunk IH]; intros res i.
  - assert (extend_zip [] res = res) as -> by by destruct res.
    unfold extend_at. rewrite lookup_nil. by destruct (res !! i).
  - destruct res as [|old res]; [done|].
    destruct i as [|i]; [done|]. simpl. by rewrite IH.
Qed.

(** The fragments beyond the length of [res] do not matter. *)
Lemma extend_zip_take chunk : ∀ res,
  extend_zip chunk res = extend_zip (take (length res) chunk) res.
Proof.
  induction chunk as [|new chunk IH]; intros [|old res]; simpl; try done.
  by rewrite <-IH.
Qed.

Lemma extend_chunks_decoded key entity_type bodies : ∀ res chunks,
  Forall2 (λ b c, chunk_series key entity_type b = Return c) bodies chunks →
  extend_chunks key entity_type res bodies
  = Return (foldl (λ res chunk, extend_zip chunk res) res chunks).
Proof.
  induction bodies as [|b bodies IH]; intros res chunks Hdec.
  - by apply Forall2_nil_inv_l in Hdec as ->.
  - apply Forall2_cons_inv_l in Hdec as (c & chunks' & Hc & Hdec & ->).
    simpl. rewrite Hc. simpl. by apply IH.
Qed.

Lemma merge_by_type_decoded key entity_type first_body bodies first chunks :
  chunk_series key entity_type first_body = Return first →
  Forall2 (λ b c, chunk_series key entity_type b = Return c) bodies chunks →
  merge_by_type key entity_type (first_body :: bodies)
  = Return (foldl (λ res chunk, extend_zip chunk res) first chunks).
Proof.
  intros Hfirst Hdec. unfold merge_by_type. simpl. rewrite Hfirst. simpl.
  by apply extend_chunks_decoded.
Qed.

Lemma foldl_extend_zip_length chunks : ∀ res,
  length (foldl (λ res chunk, extend_zip chunk res) res chunks) = length res.
Proof.
  induction chunks as [|chunk chunks IH]; intros res; simpl; [done|].
  by rewrite IH, extend_zip_length.
Qed.

Lemma foldl_extend_zip_lookup chunks : ∀ res i,
  foldl (λ res chunk, extend_zip chunk res) res chunks !! i
  = (λ old, foldl (extend_at i) old chunks) <$> res !! i.
Proof.
  induction chunks as [|chunk chunks IH]; intros res i; simpl.
  - by destruct (res !! i).
  - rewrite IH, extend_zip_lookup. by destruct (res !! i).
Qed.

(** C5. The merge of [get_entity_by_type] is positional.  When the first page
    body decodes to the series [first] and the later bodies to [chunks], the
    result has one series per fragment of the first page, and the series at
    position [i] is the one built from fragment [i] of the first page with
    fragment [i] of each later page appended in page order; no condition on
    the identities of the fragments enters.  Hence for two pages of two
    fragments each, [e1, e2] and [x, y], the result is [e1] extended by [x]
    and [e2] extended by [y], each of the combined length: the right samples
    when [x, y] are the entities of [e1, e2] in the same order, and the
    samples of the other entity, without an error, when they come
    reordered. *)
Theorem get_entity_by_type_positional `{Externals} (self : Client)
    (fuel : nat) (entity_type : string) (a : query_args)
    (sent : list request) (first_body : json) (bodies : list json)
    (first : list TimeSeries) (chunks : list (list TimeSeries)) :
  query_builder self fuel (get_entity_by_type_url self entity_type)
    (get_entity_by_type_args a)
  = (sent, Some (Return (first_body :: bodies))) →
  chunk_series "entities" entity_type first_body = Return first →
  Forall2 (λ b c, chunk_series "entities" entity_type b = Return c)
    bodies chunks →
  ∃ res,
    get_entity_by_type self fuel entity_type a = (sent, Some (Return res)) ∧
    length res = length first ∧
    (∀ i old, first !! i = Some old →
              res !! i = Some (foldl (extend_at i) old chunks)) ∧
    (∀ e1 e2 x y, first = [e1; e2] → chunks = [[x; y]] →
       res = [TimeSeries_extend e1 x; TimeSeries_extend e2 y] ∧
       entityId <$> res = [entityId e1; entityId e2] ∧
       index <$> res = [index e1 ++ index x; index e2 ++ index y]).
Proof.
  intros Hrun Hfirst Hdec.
  exists (foldl (λ res chunk, extend_zip chunk res) first chunks).
  split_and!.
  - unfold get_entity_by_type.
    rewrite (io_bind_lift _ _ sent (first_body :: bodies)) by done.
    by rewrite (merge_by_type_decoded _ _ _ _ first chunks).
  - apply foldl_extend_zip_length.
  - intros i old Hi. by rewrite foldl_extend_zip_lookup, Hi.
  - by intros e1 e2 x y -> ->.
Qed.

(** The witness of C5: page 1 lists Room1, Room2, page 2 lists Room2, Room1.
    The samples of Room2 end up in the series of Room1 and the other way
    round, and nothing is raised. *)
Lemma get_entity_by_type_positional_witness :
  let r1 := [("2024-01-01T00:00:00", 10)] in
  let r2 := [("2024-01-01T00:00:00", 20)] in
  let r1' := [("2024-01-01T01:00:00", 11)] in
  let r2' := [("2024-01-01T01:00:00", 21)] in
  let self :=
    sample_client
      [sample_chunk "entities" [sample_page "Room1" r1; sample_page "Room2" r2];
       sample_chunk "entities" [sample_page "Room2" r2'; sample_page "Room1" r1']]
      (Responded response_not_found) in
  get_entity_by_type (H := sample_externals) self 3 "Room" no_args
  = (page_request "http://quantumleap:8668/v2/types/Room"
       {[ "limit" := JNum 5 ]} <$> [0; 5; 10],
     Some (Return [sample_room "Room1" (r1 ++ r2');
                   sample_room "Room2" (r2 ++ r1')])).
Proof.
  intros r1 r2 r1' r2' self.
  destruct (get_entity_by_type_positional (H := sample_externals) self 3
              "Room" no_args
              (page_request "http://quantumleap:8668/v2/types/Room"
                 {[ "limit" := JNum 5 ]} <$> [0; 5; 10])
              (sample_chunk "entities"
                 [sample_page "Room1" r1; sample_page "Room2" r2])
              [sample_chunk "entities"
                 [sample_page "Room2" r2'; sample_page "Room1" r1']]
              [sample_room "Room1" r1; sample_room "Room2" r2]
              [[sample_room "Room2" r2'; sample_room "Room1" r1']])
    as (res & Hres & _ & _ & Hpair).
  - vm_compute. reflexivity.
  - vm_compute. reflexivity.
  - repeat constructor.
  - destruct (Hpair _ _ _ _ eq_refl eq_refl) as (-> & _). exact Hres.
Defined.

(** C10. In both by-type methods every later page is merged by the zip of
    its fragments with the series built so far.  The zip pairs the first
    [min m n] positions only: the result keeps the length of the first page,
    a series whose position the later page does not have stays as it is, the
    fragments of the later page beyond the length of the first page do not
    enter the result, and no error is raised. *)
Theorem by_type_zip_truncates `{Externals} (self : Client) (fuel : nat)
    (entity_type : string) (a : query_args) :
  (∀ sent first_body bodies first chunks,
     query_builder self fuel (get_entity_by_type_url self entity_type)
       (get_entity_by_type_args a)
     = (sent, Some (Return (first_body :: bodies))) →
     chunk_series "entities" entity_type first_body = Return first →
     Forall2 (λ b c, chunk_series "entities" entity_type b = Return c)
       bodies chunks →
     get_entity_by_type self fuel entity_type a
     = (sent, Some (Return (foldl (λ res chunk, extend_zip chunk res)
                              first chunks))))
  ∧ (∀ sent first_body bodies first chunks,
       query_builder self fuel (get_entity_values_by_type_url self entity_type)
         (get_entity_values_by_type_args entity_type a)
       = (sent, Some (Return (first_body :: bodies))) →
       chunk_series "values" entity_type first_body = Return first →
       Forall2 (λ b c, chunk_series "values" entity_type b = Return c)
         bodies chunks →
       get_entity_values_by_type self fuel entity_type a
       = (sent, Some (Return (foldl (λ res chunk, extend_zip chunk res)
                                first chunks))))
  ∧ (∀ chunk res : list TimeSeries,
       length (extend_zip chunk res) = length res
       ∧ (∀ i, (i < length chunk `min` length res)%nat →
            ∃ old new, res !! i = Some old ∧ chunk !! i = Some new ∧
              extend_zip chunk res !! i = Some (TimeSeries_extend old new))
       ∧ (∀ i, (length chunk `min` length res ≤ i)%nat →
            extend_zip chunk res !! i = res !! i)
       ∧ extend_zip chunk res = extend_zip (take (length res) chunk) res).
Proof.
  split_and!.
  - intros sent first_body bodies first chunks Hrun Hfirst Hdec.
    unfold get_entity_by_type.
    rewrite (io_bind_lift _ _ sent (first_body :: bodies)) by done.
    by rewrite (merge_by_type_decoded _ _ _ _ first chunks).
  - intros sent first_body bodies first chunks Hrun Hfirst Hdec.
    unfold get_entity_values_by_type.
    rewrite (io_bind_lift _ _ sent (first_body :: bodies)) by done.
    by rewrite (merge_by_type_decoded _ _ _ _ first chunks).
  - intros chunk res. split_and!.
    + apply extend_zip_length.
    + intros i Hi.
      destruct (lookup_lt_is_Some_2 res i) as [old Hold]; [lia|].
      destruct (lookup_lt_is_Some_2 chunk i) as [new Hnew]; [lia|].
      exists old, new. split_and!; [done..|].
      rewrite extend_zip_lookup, Hold. unfold extend_at. by rewrite Hnew.
    + intros i Hi. rewrite extend_zip_lookup. unfold extend_at.
      destruct (res !! i) as [old|] eqn:Hold; [|done].
      apply lookup_lt_Some in Hold.
      rewrite (lookup_ge_None_2 chunk i) by lia. done.
    + apply extend_zip_take.
Qed.

(** The witness of C10: [get_entity_values_by_type] with a second page of
    fewer fragments than the first; the series of Room2 is left as it
    was. *)
Lemma by_type_zip_truncates_witness :
  let r1 := [("2024-01-01T00:00:00", 10)] in
  let r2 := [("2024-01-01T00:00:00", 20)] in
  let r1' := [("2024-01-01T01:00:00", 11)] in
  let self :=
    sample_client
      [sample_chunk "values" [sample_page "Room1" r1; sample_page "Room2" r2];
       sample_chunk "values" [sample_page "Room1" r1']]
      (Responded response_not_found) in
  get_entity_values_by_type (H := sample_externals) self 3 "Room" no_args
  = (page_request "http://quantumleap:8668/v2/types/Room/value"
       {[ "limit" := JNum 5; "type" := JStr "Room" ]} <$> [0; 5; 10],
     Some (Return [sample_room "Room1" (r1 ++ r1'); sample_room "Room2" r2])).
Proof.
  intros r1 r2 r1' self.
  apply (proj1 (proj2 (by_type_zip_truncates (H := sample_externals) self 3
                         "Room" no_args))
           _ (sample_chunk "values"
                [sample_page "Room1" r1; sample_page "Room2" r2])
           [sample_chunk "values" [sample_page "Room1" r1']]
           [sample_room "Room1" r1; sample_room "Room2" r2]
           [[sample_room "Room1" r1']]).
  - vm_compute. reflexivity.
  - vm_compute. reflexivity.
  - repeat constructor.
Defined.

(** [get_entity_by_type] on a second page with more fragments than the
    first: the fragment of Room3 is dropped. *)
Example by_type_long_page :
  let r1 := [("2024-01-01T00:00:00", 10)] in
  let r1' := [("2024-01-01T01:00:00", 11)] in
  let r3' := [("2024-01-01T01:00:00", 31)] in
  let self :=
    sample_client
      [sample_chunk "entities" [sample_page "Room1" r1];
       sample_chunk "entities" [sample_page "Room1" r1'; sample_page "Room3" r3']]
      (Responded response_not_found) in
  (get_entity_by_type (H := sample_externals) self 3 "Room" no_args).2
  = Some (Return [sample_room "Room1" (r1 ++ r1')]).
Proof. vm_compute. reflexivity. Qed.

(** ** The simple query language *)

Ltac elem_cases H :=
  repeat (apply elem_of_cons in H as [->|H]); [..|by apply elem_of_nil in H].

Lemma string_length_app (s1 s2 : string) :
  String.length (s1 +:+ s2) = (String.length s1 + String.length s2)%nat.
Proof. induction s1 as [|c s1 IH]; simpl; [done|]. by rewrite IH. Qed.

(** [Statement] construction raises exactly when the operator is none of the
    seven symbols, or is one of [>], [<], [>=], [<=] and [float] rejects the
    right-hand side, whether the operator comes as a plain string or as a
    member of [Operator]; a statement that was built holds the three
    components as they were given, and with a plain string as operator it
    prints as the three, one after the other. *)
Lemma Statement_validation `{Builtins} :
  Operator_list = ["=="; "!="; ">"; "<"; ">="; "<="; "~="]
  ∧ (∀ l o r,
       raises (Statement_new l o r)
       ↔ op_symbol o ∉ Operator_list
         ∨ (op_symbol o ∈ [">"; "<"; ">="; "<="] ∧ raises (float r)))
  ∧ (∀ l o r st, Statement_new l o r = Return st → st = mkStatement l o r)
  ∧ (∀ l (s : string) r st,
       Statement_new l s r = Return st →
       Statement_str st = l +:+ s +:+ rhs_str r)
  ∧ Statement_new "temperature" ">" (RStr "42")
    = Return (mkStatement "temperature" ">" (RStr "42"))
  ∧ Statement_str (mkStatement "temperature" ">" (RStr "42")) = "temperature>42"
  ∧ raises (Statement_new "temperature" ">" (RStr "warm")).
Proof.
  assert (Hbuilt : ∀ l o r st,
            Statement_new l o r = Return st → st = mkStatement l o r).
  { intros l o r st. unfold Statement_new.
    destruct (decide _) as [Hin|Hout]; [|done].
    destruct (decide _) as [Hfree|Hnum]; [by intros [= <-]|].
    destruct (float r) as [[]|e]; [|done]. by intros [= <-]. }
  split_and!; [done| |done| |done|done|by exists ValueError].
  - intros l o r. unfold Statement_new.
    destruct (decide (op_symbol o ∈ Operator_list)) as [Hin|Hout].
    + destruct (decide (op_symbol o ∈ _)) as [Hfree|Hnum].
      * split; [by intros [e ?]|].
        intros [?|[Hn _]]; [done|].
        simpl in Hfree. revert Hn. generalize (op_symbol o) Hfree.
        intros s Hs Hn. elem_cases Hs; set_solver.
      * assert (Hn : op_symbol o ∈ [">"; "<"; ">="; "<="]).
        { revert Hin Hnum. unfold Operator_list. simpl.
          generalize (op_symbol o). intros s Hin Hnum.
          elem_cases Hin; try (exfalso; apply Hnum; set_solver); set_solver. }
        destruct (float r) as [[]|e] eqn:Hfloat; simpl.
        -- split; [by intros [e ?]|]. intros [?|[_ [e ?]]]; done.
        -- split; [|by exists e]. intros _. right. split; [done|]. by exists e.
    + split; [by left|]. intros _. by exists AssertionError.
  - intros l s r st Hst. by rewrite (Hbuilt _ _ _ _ Hst).
Qed.

(** C7, at an operator that is a member of [Operator].  The statement is
    built (a member is equal to its symbol, so it passes the test of
    [__new__]), but it does not print with the symbol: [__str__] takes [str]
    of each item, and [str] of a member is its qualified name.  So
    [Statement("temperature", Operator.GREATER_THAN, "42")] prints as
    [temperatureOperator.GREATER_THAN42], not as [temperature>42]; and so for
    every statement that is built with a member. *)
Theorem member_operator_prints_name `{Builtins} :
  Statement_new "temperature" (OMember GREATER_THAN) (RStr "42")
  = Return (mkStatement "temperature" (OMember GREATER_THAN) (RStr "42"))
  ∧ Statement_str (mkStatement "temperature" (OMember GREATER_THAN) (RStr "42"))
    = "temperatureOperator.GREATER_THAN42"
  ∧ (∀ l m r st,
       Statement_new l (OMember m) r = Return st →
       Statement_str st = l +:+ "Operator." +:+ Operator_name m +:+ rhs_str r
       ∧ Statement_str st ≠ l +:+ Operator_value m +:+ rhs_str r).
Proof.
  split_and!; [done..|].
  intros l m r st Hst.
  assert (st = mkStatement l (OMember m) r) as ->.
  { revert Hst. unfold Statement_new.
    destruct (decide _) as [Hin|Hout]; [|done].
    destruct (decide _) as [Hfree|Hnum]; [by intros [= <-]|].
    destruct (float r) as [[]|e]; [|done]. by intros [= <-]. }
  unfold Statement_str. simpl. split; [done|].
  intros Heq%(inj (String.app l)).
  apply (f_equal String.length) in Heq.
  rewrite !string_length_app in Heq. destruct m; simpl in Heq; lia.
Qed.

(** The witness of C7: [Statement("temperature", Operator.GREATER_THAN,
    "42")] is built, and printed with the name of the member. *)
Lemma member_operator_prints_name_witness :
  Statement_new (H := sample_builtins) "temperature" (OMember GREATER_THAN)
    (RStr "42")
  = Return (mkStatement "temperature" (OMember GREATER_THAN) (RStr "42"))
  ∧ Statement_str (H := sample_builtins)
      (mkStatement "temperature" (OMember GREATER_THAN) (RStr "42"))
    = "temperatureOperator.GREATER_THAN42".
Proof.
  split; apply (member_operator_prints_name (H := sample_builtins)).
Defined.

Example float_accepts `{Builtins} :
  Forall (λ s, is_float_literal s = true)
    ["42"; " -1_0.5e+3 "; "1."; ".5"; "InFinity"; "+nan"; "1E5"].
Proof. repeat constructor. Qed.

Example float_rejects `{Builtins} :
  Forall (λ s, is_float_literal s = false)
    ["warm"; ""; "."; "1_"; "1__0"; "1e"; "0x10"; "1 2"; "1._5"; "--1"].
Proof. repeat constructor. Qed.

Example float_int_overflow `{Builtins} :
  float (RInt (2 ^ 1024)) = Raise OverflowError
  ∧ float (RInt (2 ^ 1024 - 2 ^ 970 - 1)) = Return ().
Proof. split; reflexivity. Qed.

Example unknown_operator_rejected `{Builtins} :
  Statement_new "temperature" "=" (RStr "42") = Raise AssertionError.
Proof. reflexivity. Qed.

(** Equal numbers of different types have the same key, and so have a
    member of [Operator] and its symbol. *)
Example equal_keys :
  rhs_key (RInt 1) = rhs_key (RFloat (FFinite false 1 0))
  ∧ rhs_key (RInt 1) = rhs_key (RBool true)
  ∧ rhs_key (RInt 6) = rhs_key (RFloat (FFinite false 3 1))
  ∧ rhs_key (RInt 0) = rhs_key (RFloat (FZero true))
  ∧ rhs_key (RInt 1) ≠ rhs_key (RStr "1")
  ∧ rhs_key (RFloat (FNan 0)) ≠ rhs_key (RFloat (FNan 1))
  ∧ Statement_key (mkStatement "a" (OMember EQUAL) (RInt 1))
    = Statement_key (mkStatement "a" "==" (RInt 1)).
Proof. by split_and!. Qed.

(** *** The elements of a set *)

Lemma py_set_elem_of l x : x ∈ py_set l → x ∈ l.
Proof.
  induction l as [|x0 l IH]; simpl; [done|].
  intros [->|Hin]%elem_of_cons; [left|].
  right. apply IH. by apply list_elem_of_filter in Hin as [_ ?].
Qed.

Lemma py_set_keys_NoDup l : NoDup (Statement_key <$> py_set l).
Proof.
  induction l as [|x0 l IH]; simpl; [constructor|].
  apply NoDup_cons. split.
  - intros (y & Hkey & Hy)%list_elem_of_fmap.
    apply list_elem_of_filter in Hy as [Hne _]. by apply Hne.
  - eapply sublist_NoDup; [exact IH|].
    apply (fmap_sublist Statement_key), sublist_filter.
Qed.

Lemma py_set_NoDup l : NoDup (py_set l).
Proof. eapply NoDup_fmap_1, py_set_keys_NoDup. Qed.

(** Every element of the list is in the set, or an equal one is. *)
Lemma py_set_covers l x :
  x ∈ l → ∃ y, y ∈ py_set l ∧ Statement_key y = Statement_key x.
Proof.
  induction l as [|x0 l IH]; [by intros ?%elem_of_nil|].
  intros [->|Hin]%elem_of_cons; simpl.
  - exists x0. split; [left|done].
  - destruct (IH Hin) as (y & Hy & Hkey).
    destruct (decide (Statement_key y = Statement_key x0)) as [Heq|Hne].
    + exists x0. split; [left|congruence].
    + exists y. split; [|done]. right. by apply list_elem_of_filter.
Qed.

Lemma py_set_is_set_order : is_set_order py_set.
Proof. by intros l. Qed.

Lemma create_query_coerced `{Builtins} set_order args sts :
  mapM coerce args = Return sts →
  create_query set_order (AList args)
  = Return (String.concat ";" (Statement_str <$> set_order sts)).
Proof. intros Hc. unfold create_query. by rewrite Hc. Qed.

(** Of two equal statements the set holds the first. *)
Lemma set_order_equal set_order s1 s2 :
  is_set_order set_order → Statement_key s1 = Statement_key s2 →
  set_order [s1; s2] = [s1].
Proof.
  intros Hset Hkey. apply Permutation_singleton_r. rewrite (Hset [s1; s2]).
  simpl. rewrite filter_cons, decide_False; [done|]. intros Hne. by apply Hne.
Qed.

Lemma set_order_one set_order st :
  is_set_order set_order → set_order [st; st] = [st].
Proof. intros Hset. by apply set_order_equal. Qed.

Lemma set_order_two set_order s1 s2 :
  is_set_order set_order → Statement_key s1 ≠ Statement_key s2 →
  set_order [s1; s2] = [s1; s2] ∨ set_order [s1; s2] = [s2; s1].
Proof.
  intros Hset Hne. pose proof (Hset [s1; s2]) as Hperm. simpl in Hperm.
  rewrite filter_cons, decide_True in Hperm by (intros ?; by apply Hne).
  symmetry in Hperm. by apply Permutation_length_2_inv in Hperm.
Qed.

(** A raw triple that passed the constructor has one of the seven symbols as
    operator, and with one of the four numeric operators a right-hand side
    that [float] accepts. *)
Lemma Statement_new_valid `{Builtins} l o r st :
  Statement_new l o r = Return st →
  op_symbol o ∈ ["=="; "!="; ">"; "<"; ">="; "<="; "~="]
  ∧ (op_symbol o ∈ [">"; "<"; ">="; "<="] → float r = Return ()).
Proof.
  unfold Statement_new. destruct (decide _) as [Hin|Hout]; [|done].
  split; [done|].
  destruct (decide _) as [Hfree|Hnum].
  - intros Hn. exfalso. simpl in Hfree. revert Hn.
    generalize (op_symbol o) Hfree. intros s Hs Hn. elem_cases Hs; set_solver.
  - intros _. by destruct (float r) as [[]|e].
Qed.

(** C6, as stated, fails for two different statements that are equal for
    Python: [("a", "==", 1)] and [("a", "==", 1.0)] are two triples (that
    print as [a==1] and [a==1.0]), but [1 == 1.0] with equal hashes, so the
    set holds the first only, and the query is [a==1] and not the two joined
    by [;]. *)
Lemma equal_numbers_collapse :
  mkStatement "a" "==" (RInt 1)
  ≠ mkStatement "a" "==" (RFloat (FFinite false 1 0))
  ∧ (∀ (B : Builtins) set_order,
       is_set_order set_order →
       create_query set_order
         (AList [ATuple "a" "==" (RInt 1);
                 ATuple "a" "==" (RFloat (FFinite false 1 0))])
       = Return "a==1")
  ∧ create_query (H := sample_builtins) py_set
      (AList [ATuple "a" "==" (RInt 1);
              ATuple "a" "==" (RFloat (FFinite false 1 0))])
    = Return "a==1"
  ∧ Statement_str (H := sample_builtins)
      (mkStatement "a" "==" (RFloat (FFinite false 1 0))) = "a==1.0".
Proof.
  split_and!; [done| |done|done].
  intros B set_order Hset.
  rewrite (create_query_coerced _ _
             [mkStatement "a" "==" (RInt 1);
              mkStatement "a" "==" (RFloat (FFinite false 1 0))]) by done.
  by rewrite set_order_equal.
Qed.

(** C6, amended. [create_query] turns raw triples into [Statement]s through
    the validating constructor: where that raises, so does the query, and a
    query is returned only when every raw triple has one of the seven
    operators and, with a numeric operator, a right-hand side that [float]
    accepts.  It then keeps of the statements that are equal {e for Python}
    (equal left-hand sides, operators with the same symbol, right-hand sides
    equal as Python values, so that [1], [1.0] and [True] are equal) the
    first, and returns the printed forms of those kept, joined by [;], in
    the order of the set, which is not determined.  So a list with the same
    triple twice gives that statement once; a list of two statements that
    are not equal for Python gives both, in one order or the other; and of
    two statements that are equal only the first is printed. *)
Theorem create_query_deduplicates `{Builtins}
    (set_order : list Statement → list Statement) :
  is_set_order set_order →
  (∀ l o r, coerce (ATuple l o r) = Statement_new l o r)
  ∧ (∀ args e, mapM coerce args = Raise e →
       create_query set_order (AList args) = Raise e)
  ∧ (∀ args q, create_query set_order (AList args) = Return q →
       ∀ l o r, ATuple l o r ∈ args →
         op_symbol o ∈ ["=="; "!="; ">"; "<"; ">="; "<="; "~="]
         ∧ (op_symbol o ∈ [">"; "<"; ">="; "<="] → float r = Return ()))
  ∧ create_query set_order (AList [ATuple "t" ">" (RStr "warm")])
    = Raise ValueError
  ∧ create_query set_order (AList [ATuple "a" "=" (RStr "1")])
    = Raise AssertionError
  ∧ (∀ args sts, mapM coerce args = Return sts →
       ∃ order,
         order ≡ₚ py_set sts
         ∧ NoDup (Statement_key <$> order)
         ∧ (∀ st, st ∈ order → st ∈ sts)
         ∧ (∀ st, st ∈ sts →
              ∃ st', st' ∈ order ∧ Statement_key st' = Statement_key st)
         ∧ create_query set_order (AList args)
           = Return (String.concat ";" (Statement_str <$> order)))
  ∧ (∀ l o r st, Statement_new l o r = Return st →
       create_query set_order (AList [ATuple l o r; ATuple l o r])
       = Return (Statement_str st))
  ∧ (∀ s1 s2, Statement_key s1 ≠ Statement_key s2 →
       create_query set_order (AList [AStatement s1; AStatement s2])
       = Return (Statement_str s1 +:+ ";" +:+ Statement_str s2)
       ∨ create_query set_order (AList [AStatement s1; AStatement s2])
         = Return (Statement_str s2 +:+ ";" +:+ Statement_str s1))
  ∧ (∀ s1 s2, Statement_key s1 = Statement_key s2 →
       create_query set_order (AList [AStatement s1; AStatement s2])
       = Return (Statement_str s1))
  ∧ create_query set_order
      (AList [ATuple "a" "==" (RStr "1"); ATuple "a" "==" (RStr "1")])
    = Return "a==1"
  ∧ (create_query set_order
       (AList [ATuple "a" "==" (RStr "1"); ATuple "b" "!=" (RStr "2")])
     = Return "a==1;b!=2"
     ∨ create_query set_order
         (AList [ATuple "a" "==" (RStr "1"); ATuple "b" "!=" (RStr "2")])
       = Return "b!=2;a==1").
Proof.
  intros Hset.
  assert (Hsame : ∀ l o r st, Statement_new l o r = Return st →
            create_query set_order (AList [ATuple l o r; ATuple l o r])
            = Return (Statement_str st)).
  { intros l o r st Hst.
    rewrite (create_query_coerced _ _ [st; st]).
    - by rewrite set_order_one.
    - simpl. rewrite Hst. simpl. done. }
  split_and!.
  - done.
  - intros args e Hc. unfold create_query. by rewrite Hc.
  - intros args q Hq l o r Hin.
    unfold create_query in Hq.
    apply outcome_bind_Return in Hq as (sts & Hsts & _).
    apply mapM_outcome_Forall2 in Hsts.
    apply list_elem_of_lookup in Hin as [i Hi].
    destruct (Forall2_lookup_l _ _ _ _ _ Hsts Hi) as (st & _ & Hst).
    by apply Statement_new_valid in Hst.
  - done.
  - done.
  - intros args sts Hc. exists (set_order sts).
    pose proof (Hset sts) as Hperm.
    split_and!.
    + done.
    + rewrite Hperm. apply py_set_keys_NoDup.
    + intros st Hst. rewrite Hperm in Hst. by apply py_set_elem_of.
    + intros st Hst. destruct (py_set_covers sts st Hst) as (st' & Hin & Hkey).
      exists st'. by rewrite Hperm.
    + by apply create_query_coerced.
  - done.
  - intros s1 s2 Hne.
    rewrite (create_query_coerced _ _ [s1; s2]) by done.
    destruct (set_order_two set_order s1 s2 Hset Hne) as [-> | ->];
      [by left|by right].
  - intros s1 s2 Hkey.
    rewrite (create_query_coerced _ _ [s1; s2]) by done.
    by rewrite set_order_equal.
  - by rewrite (Hsame "a" "==" (RStr "1") (mkStatement "a" "==" (RStr "1"))).
  - rewrite (create_query_coerced _ _
               [mkStatement "a" "==" (RStr "1"); mkStatement "b" "!=" (RStr "2")])
      by done.
    destruct (set_order_two set_order (mkStatement "a" "==" (RStr "1"))
                (mkStatement "b" "!=" (RStr "2")) Hset) as [-> | ->];
      [done|by left|by right].
Qed.

(** The witness of C6: a set that is iterated in the order of first
    occurrence. *)
Lemma create_query_deduplicates_witness :
  create_query (H := sample_builtins) py_set
    (AList [ATuple "a" "==" (RStr "1"); ATuple "a" "==" (RStr "1")])
  = Return "a==1".
Proof.
  apply (create_query_deduplicates (H := sample_builtins) py_set
           py_set_is_set_order).
Defined.

(** ** [post_subscription] *)

(** A throttling below zero is refused before anything is sent. *)
Lemma negative_throttling_raises `{Externals} (self : Client)
    (a : Subscription.args) (t : Z) :
  Subscription.throttling a = Some t → t < 0 →
  post_subscription self a = ([], Some (Raise TypeError)).
Proof.
  intros Ht Hneg. unfold post_subscription, subscription_params.
  rewrite Ht. unfold truthy_int. destruct (decide (t = 0)); [lia|].
  assert (t <? 1 = true) as -> by (apply Z.ltb_lt; lia). done.
Qed.

(** C8, at the throttling 0.  The value is not positive, yet nothing is
    raised before the request: [if throttling:] treats 0 like a value that was
    not given, the test [throttling < 1] is not reached, and the subscription
    request is sent, without a [throttling] parameter. *)
Theorem zero_throttling_is_sent `{Externals} (self : Client) :
  ∃ params,
    subscription_params self (throttling_args 0) = Return params
    ∧ params !! "throttling" = None
    ∧ post_subscription self (throttling_args 0)
      = send_post self (mkRequest (urljoin (base_url self) "/v2/subscribe") params)
    ∧ (post_subscription self (throttling_args 0)).1
      = [mkRequest (urljoin (base_url self) "/v2/subscribe") params].
Proof.
  eexists. split_and!.
  - reflexivity.
  - done.
  - done.
  - done.
Qed.

(** * Further properties *)

(** ** The page loop, for an arbitrary service *)

Lemma try_block_Continue fetched list_of_res list_of_res' :
  try_block fetched list_of_res = Continue list_of_res' →
  ∃ b, fetched_body fetched = Some b ∧ list_of_res' = list_of_res ++ [b].
Proof.
  assert (Hclause : ∀ err r, except_clause err r list_of_res
                             ≠ Continue list_of_res').
  { intros err [r|]; simpl; [|done].
    destruct (bool_decide _); [|done].
    destruct (body r) as [[]|]; try done. by destruct (_ && _). }
  destruct fetched as [res|r]; unfold try_block, fetched_body.
  - destruct (ok res); [|by intros ?%Hclause].
    destruct (body res) as [b|]; [|done]. intros [= <-]. eauto.
  - by intros ?%Hclause.
Qed.

Lemma try_block_Break fetched list_of_res :
  try_block fetched list_of_res = Break →
  fetched_body fetched = None ∧ not_found fetched = true ∧ list_of_res ≠ [].
Proof.
  assert (Hclause : ∀ err r, except_clause err (Some r) list_of_res = Break →
                             not_found_response r = true ∧ list_of_res ≠ []).
  { intros err r. unfold except_clause, not_found_response, error_is_not_found.
    destruct (bool_decide (status_code r = 404)); [|done]. simpl.
    destruct (body r) as [[| | | | |fields]|]; try done.
    destruct (fields !! "error") as [[| | |s| |]|]; try done.
    destruct (bool_decide (s = "Not Found")); [|done]. simpl.
    destruct list_of_res; [done|]. by intros _. }
  destruct fetched as [res|[r|]]; unfold try_block, fetched_body, not_found;
    [| |done].
  - destruct (ok res); [by destruct (body res)|].
    intros ?%Hclause. naive_solver.
  - intros ?%Hclause. naive_solver.
Qed.

Section page_loop_any.
Context (self : Client) (url : string) (limit : option Z).

(** The requests of a run, however it ends: consecutive pages below the
    limit. *)
Lemma page_loop_sent fuel params : ∀ offset list_of_res sent r,
  page_loop self url limit fuel params offset list_of_res = (sent, r) →
  sent = page_request url params <$> page_offsets offset (length sent)
  ∧ Forall (λ o, below_limit o limit = true) (page_offsets offset (length sent)).
Proof.
  induction fuel as [|fuel IH]; intros offset acc sent r;
    destruct (below_limit offset limit) eqn:Hlt.
  - simpl. rewrite Hlt. intros [= <- <-]. by split; [|constructor].
  - rewrite page_loop_stop by done. intros [= <- <-]. by split; [|constructor].
  - rewrite page_loop_step by done.
    destruct (try_block _ acc) as [acc'| |e].
    + destruct (page_loop _ _ _ fuel _ _ acc') as [sent' r'] eqn:Hrun.
      intros [= <- <-]. apply IH in Hrun as [Hsent Hbelow].
      simpl. split; [f_equal; exact Hsent|by constructor].
    + intros [= <- <-]. simpl. split; [done|]. by repeat constructor.
    + intros [= <- <-]. simpl. split; [done|]. by repeat constructor.
  - rewrite page_loop_stop by done. intros [= <- <-]. by split; [|constructor].
Qed.

(** A run that returns: what it returns are the bodies of the pages it
    fetched, after what was collected before; it ended at the limit, or on a
    "not found" after something was collected. *)
Lemma page_loop_returns fuel params : ∀ offset list_of_res sent pages,
  page_loop self url limit fuel params offset list_of_res
  = (sent, Some (Return pages)) →
  ∃ bodies,
    pages = list_of_res ++ bodies
    ∧ Forall2 (λ o b, fetched_body (get self (page_request url params o)) = Some b)
        (page_offsets offset (length bodies)) bodies
    ∧ let next := offset + max_entries_per_request * Z.of_nat (length bodies) in
      (length sent = length bodies ∧ below_limit next limit = false)
      ∨ (length sent = S (length bodies) ∧ pages ≠ []
         ∧ below_limit next limit = true
         ∧ not_found (get self (page_request url params next)) = true).
Proof.
  induction fuel as [|fuel IH]; intros offset acc sent pages;
    destruct (below_limit offset limit) eqn:Hlt.
  - simpl. by rewrite Hlt.
  - rewrite page_loop_stop by done. intros [= <- <-]. exists [].
    rewrite app_nil_r. split_and!; [done|constructor|].
    left. simpl. by rewrite Z.mul_0_r, Z.add_0_r.
  - rewrite page_loop_step by done.
    destruct (try_block _ acc) as [acc'| |e] eqn:Htry; [| |done].
    + destruct (page_loop _ _ _ fuel _ _ acc') as [sent' r'] eqn:Hrun.
      intros [= <- ->].
      apply try_block_Continue in Htry as (b & Hb & ->).
      apply IH in Hrun as (bodies & -> & Hbodies & Hend).
      exists (b :: bodies). rewrite <-(assoc_L (++)). split; [done|].
      split; [by constructor|].
      simpl length.
      replace (offset + max_entries_per_request * Z.of_nat (S (length bodies)))
        with (offset + max_entries_per_request
              + max_entries_per_request * Z.of_nat (length bodies)) by lia.
      simpl in Hend |- *.
      destruct Hend as [[Hlen Hstop]|(Hlen & Hne & Hbelow & Hnf)].
      * left. split; [simpl; by rewrite Hlen|done].
      * right. split_and!; [simpl; by rewrite Hlen| |done|done].
        by destruct acc.
    + intros [= <- <-]. apply try_block_Break in Htry as (_ & Hnf & Hne).
      exists []. rewrite app_nil_r. split_and!; [done|constructor|].
      right. simpl. rewrite Z.mul_0_r, Z.add_0_r. done.
  - rewrite page_loop_stop by done. intros [= <- <-]. exists [].
    rewrite app_nil_r. split_and!; [done|constructor|].
    left. simpl. by rewrite Z.mul_0_r, Z.add_0_r.
Qed.
End page_loop_any.

Lemma pages_needed_0 start l : l ≤ start → pages_needed start l = 0%nat.
Proof.
  intros Hle. unfold pages_needed, max_entries_per_request.
  assert ((l - start + (5 - 1)) / 5 ≤ 0); [|lia].
  apply Z.lt_succ_r, Z.div_lt_upper_bound; lia.
Qed.

Lemma pages_needed_S start l :
  start < l →
  pages_needed start l = S (pages_needed (start + max_entries_per_request) l).
Proof.
  intros Hlt. unfold pages_needed, max_entries_per_request.
  replace (l - start + (5 - 1)) with ((l - (start + 5) + (5 - 1)) + 1 * 5) by lia.
  rewrite Z.div_add by lia.
  assert (0 ≤ (l - (start + 5) + (5 - 1)) / 5); [|lia].
  apply Z.div_pos; lia.
Qed.

(** With a limit the loop ends, whatever the service does, within the pages
    between the offset and the limit. *)
Lemma page_loop_ends self url l params : ∀ fuel offset list_of_res,
  (pages_needed offset l ≤ fuel)%nat →
  ∃ sent o,
    page_loop self url (Some l) fuel params offset list_of_res = (sent, Some o)
    ∧ (length sent ≤ pages_needed offset l)%nat.
Proof.
  induction fuel as [|fuel IH]; intros offset acc Hfuel;
    destruct (decide (offset < l)) as [Hlt|Hge].
  - rewrite pages_needed_S in Hfuel by done. lia.
  - rewrite page_loop_stop by (simpl; apply Z.ltb_ge; lia).
    eexists _, _. split; [done|]. simpl. lia.
  - rewrite page_loop_step by (simpl; by apply Z.ltb_lt).
    rewrite pages_needed_S in Hfuel |- * by done.
    destruct (try_block _ acc) as [acc'| |e].
    + destruct (IH (offset + max_entries_per_request) acc')
        as (sent & o & -> & Hlen); [lia|].
      eexists _, _. split; [done|]. simpl. lia.
    + eexists _, _. split; [done|]. simpl. lia.
    + eexists _, _. split; [done|]. simpl. lia.
  - rewrite page_loop_stop by (simpl; apply Z.ltb_ge; lia).
    eexists _, _. split; [done|]. simpl. lia.
Qed.

Example pages_needed_values :
  pages_needed 0 12 = 3%nat ∧ pages_needed 0 10 = 2%nat
  ∧ pages_needed 7 8 = 1%nat ∧ pages_needed 3 3 = 0%nat.
Proof. by split_and!. Qed.

(** X1. With a finite limit [__query_builder] ends whatever the service
    answers: it sends at most as many requests as there are pages between the
    offset and the limit, and then returns or raises. *)
Theorem query_builder_ends `{Externals} (self : Client) (url : string)
    (a : query_args) (params : gmap string json) (l : Z) (fuel : nat) :
  build_params a = Return params →
  limit a = Some l →
  (pages_needed (default 0%Z (offset a)) l ≤ fuel)%nat →
  ∃ sent o,
    query_builder self fuel url a = (sent, Some o)
    ∧ (length sent ≤ pages_needed (default 0%Z (offset a)) l)%nat.
Proof.
  intros Hp Hl Hfuel.
  rewrite (query_builder_params _ _ _ _ params), Hl by done.
  by apply page_loop_ends.
Qed.

Lemma query_builder_ends_witness :
  ∃ sent o,
    query_builder (H := sample_externals) (failing_client (Failed None)) 3
      "url" (range_args 12 0)
    = (sent, Some o)
    ∧ (length sent ≤ pages_needed (default 0%Z (offset (range_args 12 0))) 12)%nat.
Proof.
  apply (query_builder_ends (H := sample_externals) (failing_client (Failed None))
           "url" (range_args 12 0) {[ "limit" := JNum 5 ]} 12 3).
  - reflexivity.
  - reflexivity.
  - vm_compute. lia.
Defined.

Lemma query_builder_sent `{Externals} (self : Client) (url : string)
    (a : query_args) (params : gmap string json) (fuel : nat)
    (sent : list request) (r : option (outcome (list json))) :
  build_params a = Return params →
  query_builder self fuel url a = (sent, r) →
  sent = page_request url params
         <$> page_offsets (default 0 (offset a)) (length sent)
  ∧ Forall (λ o, below_limit o (limit a) = true)
      (page_offsets (default 0 (offset a)) (length sent)).
Proof.
  intros Hp. rewrite (query_builder_params _ _ _ _ params) by done.
  apply page_loop_sent.
Qed.

(** X2. Whatever the service answers and however the run ends, the requests
    [__query_builder] sends are those of consecutive pages: all to the given
    url, the [i]-th with the offset [offset + 5 * i] and otherwise with the
    parameters built before the loop, and every requested offset is below
    the limit. *)
Theorem query_builder_requests `{Externals} (self : Client) (url : string)
    (a : query_args) (params : gmap string json) (fuel : nat)
    (sent : list request) (r : option (outcome (list json))) :
  build_params a = Return params →
  query_builder self fuel url a = (sent, r) →
  sent = (λ i : nat, page_request url params
            (default 0 (offset a) + max_entries_per_request * Z.of_nat i))
         <$> seq 0 (length sent)
  ∧ Forall (λ req, ∃ o, req_offset req = Some (JNum o)
                        ∧ below_limit o (limit a) = true) sent.
Proof.
  intros Hp Hrun.
  destruct (query_builder_sent self url a params fuel sent r Hp Hrun)
    as [Hsent Hbelow].
  split.
  - rewrite Hsent at 1. by rewrite page_offsets_seq, <-list_fmap_compose.
  - rewrite Hsent. apply Forall_fmap. eapply Forall_impl; [exact Hbelow|].
    intros o Ho. exists o. split; [apply lookup_insert_eq|done].
Qed.

Lemma query_builder_requests_witness :
  let sent := page_request "url" {[ "limit" := JNum 5 ]} <$> [3; 8] in
  sent = (λ i : nat, page_request "url" {[ "limit" := JNum 5 ]}
            (default 0 (offset (range_args 12 3))
             + max_entries_per_request * Z.of_nat i))
         <$> seq 0 (length sent)
  ∧ Forall (λ req, ∃ o, req_offset req = Some (JNum o)
                        ∧ below_limit o (limit (range_args 12 3)) = true) sent.
Proof.
  intros sent.
  apply (query_builder_requests (H := sample_externals)
           (constant_client (JList []))
           "url" (range_args 12 3) {[ "limit" := JNum 5 ]} 2 sent
           (Some (Return [JList []; JList []]))).
  - reflexivity.
  - reflexivity.
Defined.

(** X3. When [__query_builder] returns, the list it returns holds exactly the
    bodies of the pages it fetched, in the order of the requests, and the run
    ended in one of two ways: the next offset reached the limit, every
    request having delivered a page; or one more request was answered "not
    found" after at least one page. *)
Theorem query_builder_returns `{Externals} (self : Client) (url : string)
    (a : query_args) (params : gmap string json) (fuel : nat)
    (sent : list request) (pages : list json) :
  let start := default 0 (offset a) in
  let next := start + max_entries_per_request * Z.of_nat (length pages) in
  build_params a = Return params →
  query_builder self fuel url a = (sent, Some (Return pages)) →
  Forall2 (λ o b, fetched_body (get self (page_request url params o)) = Some b)
    (page_offsets start (length pages)) pages
  ∧ ((length sent = length pages ∧ below_limit next (limit a) = false)
     ∨ (length sent = S (length pages) ∧ pages ≠ []
        ∧ below_limit next (limit a) = true
        ∧ not_found (get self (page_request url params next)) = true)).
Proof.
  intros start next Hp. rewrite (query_builder_params _ _ _ _ params) by done.
  intros (bodies & -> & Hbodies & Hend)%page_loop_returns. done.
Qed.

Lemma query_builder_returns_witness :
  let self := sample_client [JStr "page 0"; JStr "page 1"]
                (Responded response_not_found) in
  let params : gmap string json := {[ "limit" := JNum 5 ]} in
  let pages := [JStr "page 0"; JStr "page 1"] in
  let sent := page_request "url" params <$> [0; 5; 10] in
  Forall2 (λ o b, fetched_body (get self (page_request "url" params o)) = Some b)
    (page_offsets 0 (length pages)) pages
  ∧ ((length sent = length pages ∧ below_limit 10 None = false)
     ∨ (length sent = S (length pages) ∧ pages ≠ []
        ∧ below_limit 10 None = true
        ∧ not_found (get self (page_request "url" params 10)) = true)).
Proof.
  intros self params pages sent.
  apply (query_builder_returns (H := sample_externals) self "url" no_args
           params 3 sent pages).
  - reflexivity.
  - reflexivity.
Defined.

(** ** The parameters of the page requests *)

Lemma update_if_lookup_ne key v (params : gmap string json) k :
  k ≠ key → update_if key v params !! k = params !! k.
Proof.
  intros Hne. unfold update_if. destruct (truthy_str v); [|done].
  by apply lookup_insert_ne.
Qed.

Lemma update_enum_lookup_ne E key v (params params' : gmap string json) k :
  update_enum E key v params = Return params' →
  k ≠ key → params' !! k = params !! k.
Proof.
  unfold update_enum. intros Hup Hne.
  destruct (truthy_str v) as [s|]; [|by injection Hup as <-].
  destruct (E s); [|done]. injection Hup as <-. by apply lookup_insert_ne.
Qed.

Lemma update_enum_cases E key v (params : gmap string json) :
  (rejected E v ∧ update_enum E key v params = Raise ValueError)
  ∨ (¬ rejected E v ∧ ∃ params', update_enum E key v params = Return params').
Proof.
  unfold update_enum, rejected. destruct (truthy_str v) as [s|].
  - destruct (E s) as [value|] eqn:Hs.
    + right. split; [|eauto]. intros (s' & [= <-] & ?). congruence.
    + left. eauto.
  - right. split; [|eauto]. by intros (s' & [=] & ?).
Qed.

(** The parameters are built unless one of the three enumeration arguments
    is rejected, which raises [ValueError]. *)
Lemma build_params_cases `{Externals} (a : query_args) :
  let bad := rejected AggrMethod (aggr_method a)
             ∨ rejected AggrPeriod (aggr_period a)
             ∨ rejected AggrScope (aggr_scope a) in
  (bad ∧ build_params a = Raise ValueError)
  ∨ (¬ bad ∧ ∃ params, build_params a = Return params).
Proof.
  intros bad. subst bad. unfold build_params.
  destruct (update_enum_cases AggrMethod "aggrMethod" (aggr_method a)
              (update_if "type" (entity_type a)
                 (update_if "options" (options a) ∅)))
    as [[Hm ->]|[Hm [p1 ->]]]; [left; by split; [left|]|].
  simpl.
  destruct (update_enum_cases AggrPeriod "aggrPeriod" (aggr_period a) p1)
    as [[Hp ->]|[Hp [p2 ->]]]; [left; by split; [right; left|]|].
  simpl.
  match goal with
  | |- context [update_enum AggrScope "aggr_scope" (aggr_scope a) ?p] =>
      destruct (update_enum_cases AggrScope "aggr_scope" (aggr_scope a) p)
        as [[Hs ->]|[Hs [p3 ->]]]
  end; [left; by split; [right; right|]|].
  simpl. right. split; [tauto|eauto].
Qed.

Lemma build_params_limit `{Externals} (a : query_args) params :
  build_params a = Return params →
  params !! "limit" = Some (JNum (page_limit (limit a))).
Proof.
  unfold build_params.
  intros (p1 & _ & (p2 & _ & (p3 & Hscope & [= <-])%outcome_bind_Return)
    %outcome_bind_Return)%outcome_bind_Return.
  rewrite update_if_lookup_ne by done.
  rewrite (update_enum_lookup_ne _ _ _ _ _ _ Hscope) by done.
  rewrite !update_if_lookup_ne by done.
  unfold page_limit. destruct (limit a) as [l|]; [|apply lookup_insert_eq].
  destruct (max_entries_per_request <? l) eqn:Hl; rewrite lookup_insert_eq.
  - apply Z.ltb_lt in Hl. by rewrite Z.min_r by lia.
  - apply Z.ltb_ge in Hl. by rewrite Z.min_l by lia.
Qed.

Lemma page_loop_nothing_sent self url limit fuel params offset list_of_res r :
  page_loop self url limit fuel params offset list_of_res = ([], r) →
  r = None ∨ r = Some (Return list_of_res).
Proof.
  destruct (below_limit offset limit) eqn:Hlt.
  - destruct fuel as [|fuel]; [simpl; rewrite Hlt; naive_solver|].
    rewrite page_loop_step by done.
    destruct (try_block _ _); [|done..].
    by destruct (page_loop _ _ _ _ _ _ _).
  - rewrite page_loop_stop by done. naive_solver.
Qed.

(** X4. Every request of [__query_builder] asks for [min limit 5] entries
    (for 5 when no limit is given): the [limit] parameter is fixed before the
    loop and is the same for every page; it is not reduced to what is left of
    the limit. *)
Theorem query_builder_page_limit `{Externals} (self : Client) (url : string)
    (a : query_args) (fuel : nat) (sent : list request)
    (r : option (outcome (list json))) :
  query_builder self fuel url a = (sent, r) →
  Forall (λ req, req_params req !! "limit"
                 = Some (JNum (page_limit (limit a)))) sent.
Proof.
  destruct (build_params a) as [params|e] eqn:Hp.
  - intros Hrun.
    destruct (query_builder_sent self url a params fuel sent r Hp Hrun)
      as [Hsent _].
    rewrite Hsent. apply Forall_fmap, Forall_forall. intros o _. simpl.
    rewrite lookup_insert_ne by done. by apply build_params_limit.
  - unfold query_builder, mbind, io_mbind, io_bind, io_lift. rewrite Hp.
    intros [= <- <-]. constructor.
Qed.

Lemma query_builder_page_limit_witness :
  Forall (λ req, req_params req !! "limit" = Some (JNum 5))
    (page_request "url" {[ "limit" := JNum 5 ]} <$> [0; 5]).
Proof.
  apply (query_builder_page_limit (H := sample_externals)
           (constant_client (JList [])) "url" (limit_args 7) 2 _
           (Some (Return [JList []; JList []]))).
  reflexivity.
Defined.

(** X5. [__query_builder] raises [ValueError] without sending anything
    exactly when one of [aggr_method], [aggr_period] and [aggr_scope] is
    given (not [None], not empty) and is no value of its enumeration. *)
Theorem query_builder_rejects_enum `{Externals} (self : Client) (url : string)
    (a : query_args) (fuel : nat) :
  query_builder self fuel url a = ([], Some (Raise ValueError))
  ↔ rejected AggrMethod (aggr_method a)
    ∨ rejected AggrPeriod (aggr_period a)
    ∨ rejected AggrScope (aggr_scope a).
Proof.
  destruct (build_params_cases a) as [[Hbad Hp]|[Hgood [params Hp]]].
  - split; [done|]. intros _.
    unfold query_builder, mbind, io_mbind, io_bind, io_lift. by rewrite Hp.
  - split; [|done]. rewrite (query_builder_params _ _ _ _ params) by done.
    intros [|]%page_loop_nothing_sent; done.
Qed.

Example invalid_aggr_method :
  query_builder (H := sample_externals) (constant_client (JList [])) 3 "url"
    (aggr_method_args "median")
  = ([], Some (Raise ValueError)).
Proof. reflexivity. Qed.

(** ** Which exception a failing page raises *)

(** After pages that succeed, what the [try] block makes of the next page
    decides. *)
Lemma query_builder_after_pages `{Externals} (self : Client) (url : string)
    (a : query_args) (params : gmap string json) (bodies : list json)
    (fuel : nat) (e : exn) :
  let start := default 0 (offset a) in
  let failing :=
    get self (page_request url params
                (start + max_entries_per_request * Z.of_nat (length bodies))) in
  build_params a = Return params →
  Forall2 (λ o b, fetched_body (get self (page_request url params o)) = Some b)
    (page_offsets start (length bodies)) bodies →
  Forall (λ o, below_limit o (limit a) = true)
    (page_offsets start (S (length bodies))) →
  try_block failing bodies = Throw e →
  (length bodies < fuel)%nat →
  query_builder self fuel url a
  = (page_request url params <$> page_offsets start (S (length bodies)),
     Some (Raise e)).
Proof.
  intros start failing Hp Hok Hlt Hthrow Hfuel.
  rewrite (query_builder_params _ _ _ _ params) by done. fold start.
  rewrite page_offsets_snoc in Hlt |- *.
  rewrite Forall_app, Forall_singleton in Hlt. destruct Hlt as [Hlt Hlast].
  replace fuel with (length bodies + S (fuel - S (length bodies)))%nat by lia.
  rewrite page_loop_prefix by done.
  rewrite page_loop_step by done. fold failing. simpl app at 1 2.
  rewrite Hthrow. by rewrite fmap_app.
Qed.

(** X6. A transport failure that carries no response (a connection error, a
    timeout) does not reach the caller as the [RequestException] it is: the
    handler reads [err.response.status_code] first, and the query raises
    [AttributeError], on the first page as after collected pages. *)
Theorem transport_failure_raises_AttributeError `{Externals} (self : Client)
    (url : string) (a : query_args) (params : gmap string json)
    (bodies : list json) (fuel : nat) :
  let start := default 0 (offset a) in
  build_params a = Return params →
  Forall2 (λ o b, fetched_body (get self (page_request url params o)) = Some b)
    (page_offsets start (length bodies)) bodies →
  Forall (λ o, below_limit o (limit a) = true)
    (page_offsets start (S (length bodies))) →
  get self (page_request url params
              (start + max_entries_per_request * Z.of_nat (length bodies)))
  = Failed None →
  (length bodies < fuel)%nat →
  query_builder self fuel url a
  = (page_request url params <$> page_offsets start (S (length bodies)),
     Some (Raise AttributeError)).
Proof.
  intros start Hp Hok Hlt Hfail Hfuel.
  apply query_builder_after_pages; try done.
  fold start. by rewrite Hfail.
Qed.

Lemma transport_failure_raises_AttributeError_witness :
  query_builder (H := sample_externals)
    (sample_client [JStr "page 0"] (Failed None)) 2 "url" no_args
  = (page_request "url" {[ "limit" := JNum 5 ]} <$> [0; 5],
     Some (Raise AttributeError)).
Proof.
  apply (transport_failure_raises_AttributeError (H := sample_externals)
           (sample_client [JStr "page 0"] (Failed None)) "url" no_args
           {[ "limit" := JNum 5 ]} [JStr "page 0"] 2).
  - reflexivity.
  - repeat constructor.
  - repeat constructor.
  - reflexivity.
  - simpl. lia.
Defined.

(** X7. A response with a failure status (400 to 599) other than 404 makes
    the query raise the [HTTPError] of that response, also after pages were
    collected: what was collected is not returned. *)
Theorem http_error_is_raised `{Externals} (self : Client) (url : string)
    (a : query_args) (params : gmap string json) (bodies : list json)
    (fuel : nat) (res : response) :
  let start := default 0 (offset a) in
  build_params a = Return params →
  Forall2 (λ o b, fetched_body (get self (page_request url params o)) = Some b)
    (page_offsets start (length bodies)) bodies →
  Forall (λ o, below_limit o (limit a) = true)
    (page_offsets start (S (length bodies))) →
  get self (page_request url params
              (start + max_entries_per_request * Z.of_nat (length bodies)))
  = Responded res →
  400 ≤ status_code res < 600 →
  status_code res ≠ 404 →
  (length bodies < fuel)%nat →
  query_builder self fuel url a
  = (page_request url params <$> page_offsets start (S (length bodies)),
     Some (Raise (HTTPError res))).
Proof.
  intros start Hp Hok Hlt Hfail Hstatus Hne Hfuel.
  apply query_builder_after_pages; try done.
  fold start. rewrite Hfail. unfold try_block, ok, except_clause.
  assert (400 <=? status_code res = true) as -> by (apply Z.leb_le; lia).
  assert (status_code res <? 600 = true) as -> by (apply Z.ltb_lt; lia).
  simpl. by rewrite bool_decide_eq_false_2.
Qed.

Lemma http_error_is_raised_witness :
  query_builder (H := sample_externals)
    (sample_client [JStr "page 0"; JStr "page 1"]
       (Responded (mkResponse 503 None))) 3 "url" no_args
  = (page_request "url" {[ "limit" := JNum 5 ]} <$> [0; 5; 10],
     Some (Raise (HTTPError (mkResponse 503 None)))).
Proof.
  apply (http_error_is_raised (H := sample_externals)
           (sample_client [JStr "page 0"; JStr "page 1"]
              (Responded (mkResponse 503 None))) "url" no_args
           {[ "limit" := JNum 5 ]} [JStr "page 0"; JStr "page 1"] 3
           (mkResponse 503 None)).
  - reflexivity.
  - repeat constructor.
  - repeat constructor.
  - reflexivity.
  - simpl. lia.
  - simpl. lia.
  - simpl. lia.
Defined.

(** ** The query methods on an empty range *)

Lemma rejected_None E : ¬ rejected E None.
Proof. by intros (s & [=] & _). Qed.

(** The arguments a method forwards are accepted when the method's own
    arguments are. *)
Lemma build_params_forwarded `{Externals} (a a' : query_args) params :
  build_params a = Return params →
  (aggr_method a' = aggr_method a ∨ aggr_method a' = None) →
  (aggr_period a' = aggr_period a ∨ aggr_period a' = None) →
  (aggr_scope a' = aggr_scope a ∨ aggr_scope a' = None) →
  ∃ params', build_params a' = Return params'.
Proof.
  intros Hp Hm Hper Hs.
  destruct (build_params_cases a) as [[_ Hr]|[Hgood _]]; [congruence|].
  destruct (build_params_cases a') as [[Hbad _]|[_ Hok]]; [|done].
  exfalso. destruct Hbad as [Hb|[Hb|Hb]].
  - destruct Hm as [Heq|Heq]; rewrite Heq in Hb;
      [tauto|by apply rejected_None in Hb].
  - destruct Hper as [Heq|Heq]; rewrite Heq in Hb;
      [tauto|by apply rejected_None in Hb].
  - destruct Hs as [Heq|Heq]; rewrite Heq in Hb;
      [tauto|by apply rejected_None in Hb].
Qed.

Lemma query_builder_empty_range `{Externals} (self : Client) (url : string)
    (a : query_args) (params : gmap string json) (l : Z) (fuel : nat) :
  build_params a = Return params →
  limit a = Some l →
  l ≤ default 0 (offset a) →
  query_builder self fuel url a = ([], Some (Return [])).
Proof.
  intros Hp Hl Hle. rewrite (query_builder_params _ _ _ _ params), Hl by done.
  apply page_loop_stop. simpl. apply Z.ltb_ge. lia.
Qed.

(** X8. When the limit does not exceed the offset (a limit of 0, say), the
    loop is not entered and nothing is sent; [__query_builder] returns the
    empty list, and each query method then fails on [list_of_res[0]] with
    [IndexError]. *)
Theorem empty_range_raises_IndexError `{Externals} (self : Client)
    (fuel : nat) (a : query_args) (params : gmap string json) (l : Z)
    (id type : string) :
  build_params a = Return params →
  limit a = Some l →
  l ≤ default 0 (offset a) →
  get_entities self fuel a = ([], Some (Raise IndexError))
  ∧ get_entity_by_id self fuel id a = ([], Some (Raise IndexError))
  ∧ get_entity_values_by_id self fuel id a = ([], Some (Raise IndexError))
  ∧ get_entity_by_type self fuel type a = ([], Some (Raise IndexError))
  ∧ get_entity_values_by_type self fuel type a
    = ([], Some (Raise IndexError)).
Proof.
  intros Hp Hl Hle.
  assert (Hempty : ∀ url a',
    limit a' = limit a → offset a' = offset a →
    (aggr_method a' = aggr_method a ∨ aggr_method a' = None) →
    (aggr_period a' = aggr_period a ∨ aggr_period a' = None) →
    (aggr_scope a' = aggr_scope a ∨ aggr_scope a' = None) →
    query_builder self fuel url a' = ([], Some (Return []))).
  { intros url a' Hl' Ho' Hm Hper Hs.
    destruct (build_params_forwarded a a' params Hp Hm Hper Hs) as [p' Hp'].
    apply (query_builder_empty_range _ _ _ p' l); [done|congruence|].
    by rewrite Ho'. }
  split_and!.
  - unfold get_entities. rewrite (io_bind_lift _ _ [] []); [done|].
    apply Hempty; simpl; auto.
  - unfold get_entity_by_id. rewrite (io_bind_lift _ _ [] []); [done|].
    apply Hempty; simpl; auto.
  - unfold get_entity_values_by_id. rewrite (io_bind_lift _ _ [] []); [done|].
    apply Hempty; simpl; auto.
  - unfold get_entity_by_type. rewrite (io_bind_lift _ _ [] []); [done|].
    apply Hempty; simpl; auto.
  - unfold get_entity_values_by_type.
    rewrite (io_bind_lift _ _ [] []); [done|].
    apply Hempty; simpl; auto.
Qed.

Lemma empty_range_raises_IndexError_witness :
  get_entity_by_id (H := sample_externals) (constant_client (JList [])) 3
    "Room1" (limit_args 0)
  = ([], Some (Raise IndexError)).
Proof.
  apply (empty_range_raises_IndexError (H := sample_externals)
           (constant_client (JList [])) 3 (limit_args 0)
           {[ "limit" := JNum 0 ]} 0 "Room1" "Room").
  - reflexivity.
  - reflexivity.
  - simpl. lia.
Defined.

(** ** Keyword arguments taken from a page body *)

Lemma io_bind_lift_Return {A B} (m : io A) (f : A → outcome B) sent x :
  (m ≫= λ y, io_lift (f y)) = (sent, Some (Return x)) →
  ∃ y, m = (sent, Some (Return y)) ∧ f y = Return x.
Proof.
  unfold mbind, io_mbind, io_bind, io_lift.
  destruct m as [sent' [[y|e]|]]; [|done..].
  rewrite app_nil_r. intros [= <- Hf]. eauto.
Qed.

Lemma kwargs_with_Return key v item kwargs :
  kwargs_with key v item = Return kwargs → keyword_free key item.
Proof.
  destruct item as [| | | | |fields]; try done. simpl.
  destruct (fields !! key) eqn:Hkey; [done|]. intros _. by exists fields.
Qed.

Lemma chunk_series_Return key entity_type chunk series :
  chunk_series key entity_type chunk = Return series →
  ∃ items,
    page_fragments key chunk = Return items
    ∧ length series = length items
    ∧ Forall (keyword_free "entityType") items.
Proof.
  unfold chunk_series, page_fragments.
  intros (v & Hv & (items & Hitems & Hmap)%outcome_bind_Return)
    %outcome_bind_Return.
  exists items. rewrite Hv. split_and!; [done| |].
  - by apply mapM_outcome_length in Hmap.
  - apply mapM_outcome_Forall2 in Hmap.
    apply Forall_forall. intros item Hitem.
    apply list_elem_of_lookup in Hitem as [i Hi].
    destruct (Forall2_lookup_l _ _ _ _ _ Hmap Hi) as (ts & _ & Hts).
    apply outcome_bind_Return in Hts as (kwargs & Hkw & _).
    by eapply kwargs_with_Return.
Qed.

Lemma extend_chunks_Return key entity_type chunks : ∀ res0 res,
  extend_chunks key entity_type res0 chunks = Return res →
  length res = length res0
  ∧ Forall (λ chunk, ∃ items, page_fragments key chunk = Return items
                      ∧ Forall (keyword_free "entityType") items) chunks.
Proof.
  induction chunks as [|chunk chunks IH]; intros res0 res; simpl.
  - intros [= <-]. by split; [|constructor].
  - intros (series & Hseries & Hrest)%outcome_bind_Return.
    apply IH in Hrest as [Hlen Hall]. rewrite extend_zip_length in Hlen.
    split; [done|]. constructor; [|done].
    apply chunk_series_Return in Hseries as (items & ? & _ & ?). eauto.
Qed.

Lemma merge_by_type_Return key entity_type pages res :
  merge_by_type key entity_type pages = Return res →
  ∃ first rest items,
    pages = first :: rest
    ∧ page_fragments key first = Return items
    ∧ length res = length items
    ∧ Forall (λ chunk, ∃ items, page_fragments key chunk = Return items
                        ∧ Forall (keyword_free "entityType") items) pages.
Proof.
  unfold merge_by_type.
  intros (first & Hfirst & (series & Hseries & Hrest)%outcome_bind_Return)
    %outcome_bind_Return.
  destruct pages as [|first' rest]; [done|]. injection Hfirst as ->.
  apply extend_chunks_Return in Hrest as [Hlen Hall].
  apply chunk_series_Return in Hseries as (items & Hitems & Hlen' & Hfree).
  exists first, rest, items. split_and!; [done|done|congruence|].
  constructor; [eauto|done].
Qed.

(** X9. The by-type methods pass every fragment of every collected page as
    keyword arguments next to [entityType=entity_type].  So when
    [get_entity_by_type] (or [get_entity_values_by_type]) returns, at least
    one page was collected, every page is a dict whose [entities] (or
    [values]) could be iterated, every fragment is a dict {e without} an
    [entityType] key of its own (a fragment with one is a [TypeError]), and
    the result has one series per fragment of the first page. *)
Theorem by_type_fragments_without_type `{Externals} (self : Client)
    (fuel : nat) (entity_type : string) (a : query_args) :
  (∀ sent res,
     get_entity_by_type self fuel entity_type a = (sent, Some (Return res)) →
     ∃ first rest items,
       query_builder self fuel (get_entity_by_type_url self entity_type)
         (get_entity_by_type_args a)
       = (sent, Some (Return (first :: rest)))
       ∧ page_fragments "entities" first = Return items
       ∧ length res = length items
       ∧ Forall (λ chunk, ∃ items,
                   page_fragments "entities" chunk = Return items
                   ∧ Forall (keyword_free "entityType") items)
           (first :: rest))
  ∧ (∀ sent res,
       get_entity_values_by_type self fuel entity_type a
       = (sent, Some (Return res)) →
       ∃ first rest items,
         query_builder self fuel
           (get_entity_values_by_type_url self entity_type)
           (get_entity_values_by_type_args entity_type a)
         = (sent, Some (Return (first :: rest)))
         ∧ page_fragments "values" first = Return items
         ∧ length res = length items
         ∧ Forall (λ chunk, ∃ items,
                     page_fragments "values" chunk = Return items
                     ∧ Forall (keyword_free "entityType") items)
             (first :: rest)).
Proof.
  split.
  - intros sent res (pages & Hrun & Hmerge)%io_bind_lift_Return.
    apply merge_by_type_Return in Hmerge
      as (first & rest & items & -> & ? & ? & ?).
    by exists first, rest, items.
  - intros sent res (pages & Hrun & Hmerge)%io_bind_lift_Return.
    apply merge_by_type_Return in Hmerge
      as (first & rest & items & -> & ? & ? & ?).
    by exists first, rest, items.
Qed.

(** A fragment that names its type: [get_entity_by_type] raises
    [TypeError]. *)
Example fragment_with_entityType :
  (get_entity_by_type (H := sample_externals)
     (constant_client
        (sample_chunk "entities"
           [JDict {[ "entityId" := JStr "Room1"; "entityType" := JStr "Room";
                     "index" := JList []; "attributes" := JList [] ]}]))
     2 "Room" (limit_args 5)).2
  = Some (Raise TypeError).
Proof. vm_compute. reflexivity. Qed.

Lemma by_type_fragments_without_type_witness :
  let r1 := [("2024-01-01T00:00:00", 10)] in
  let r2 := [("2024-01-01T00:00:00", 20)] in
  let self :=
    constant_client
      (sample_chunk "entities"
         [sample_page "Room1" r1; sample_page "Room2" r2]) in
  ∃ first rest items,
    query_builder (H := sample_externals) self 1
      (get_entity_by_type_url (H := sample_externals) self "Room")
      (get_entity_by_type_args (limit_args 5))
    = (page_request "http://quantumleap:8668/v2/types/Room"
         {[ "limit" := JNum 5 ]} <$> [0],
       Some (Return (first :: rest)))
    ∧ page_fragments "entities" first = Return items
    ∧ length [sample_room "Room1" r1; sample_room "Room2" r2] = length items
    ∧ Forall (λ chunk, ∃ items,
                page_fragments "entities" chunk = Return items
                ∧ Forall (keyword_free "entityType") items)
        (first :: rest).
Proof.
  intros r1 r2 self.
  apply (proj1 (by_type_fragments_without_type (H := sample_externals) self 1
                  "Room" (limit_args 5))).
  vm_compute. reflexivity.
Defined.

Lemma extend_values_pages_Return entity_id items : ∀ res0 res,
  extend_values_pages entity_id res0 items = Return res →
  Forall (keyword_free "entityId") items.
Proof.
  induction items as [|item items IH]; intros res0 res; simpl.
  - intros _. constructor.
  - intros (other & Hother & Hrest)%outcome_bind_Return.
    constructor; [|by eapply IH].
    apply outcome_bind_Return in Hother as (kwargs & Hkw & _).
    by eapply kwargs_with_Return.
Qed.

(** X10. [get_entity_values_by_id] passes every collected page body as
    keyword arguments next to [entityId=entity_id].  So it returns only when
    at least one page was collected and every page body is a dict without an
    [entityId] key; and when the first page body is a dict that has an
    [entityId] key, the method raises [TypeError], whatever else the body
    holds. *)
Theorem values_by_id_pages_without_id `{Externals} (self : Client)
    (fuel : nat) (entity_id : string) (a : query_args) :
  (∀ sent res,
     get_entity_values_by_id self fuel entity_id a
     = (sent, Some (Return res)) →
     ∃ first rest,
       query_builder self fuel (get_entity_values_by_id_url self entity_id)
         (get_entity_values_by_id_args a)
       = (sent, Some (Return (first :: rest)))
       ∧ Forall (keyword_free "entityId") (first :: rest))
  ∧ (∀ sent fields rest v,
       query_builder self fuel (get_entity_values_by_id_url self entity_id)
         (get_entity_values_by_id_args a)
       = (sent, Some (Return (JDict fields :: rest))) →
       fields !! "entityId" = Some v →
       get_entity_values_by_id self fuel entity_id a
       = (sent, Some (Raise TypeError))).
Proof.
  split.
  - intros sent res (pages & Hrun & Hmerge)%io_bind_lift_Return.
    unfold merge_entity_values_by_id in Hmerge.
    apply outcome_bind_Return in Hmerge as (first & Hfirst & Hmerge).
    apply outcome_bind_Return in Hmerge as (res0 & Hres0 & Hrest).
    destruct pages as [|first' rest]; [done|]. injection Hfirst as ->.
    exists first, rest. split; [done|]. constructor.
    + apply outcome_bind_Return in Hres0 as (kwargs & Hkw & _).
      by eapply kwargs_with_Return.
    + by eapply extend_values_pages_Return.
  - intros sent fields rest v Hrun Hid. unfold get_entity_values_by_id.
    rewrite (io_bind_lift _ _ sent (JDict fields :: rest)) by done.
    unfold merge_entity_values_by_id, values_series. simpl. by rewrite Hid.
Qed.

Lemma values_by_id_pages_without_id_witness :
  get_entity_values_by_id (H := sample_externals)
    (constant_client (sample_page "Room1" [("2024-01-01T00:00:00", 20)])) 1
    "Room1" (limit_args 5)
  = (page_request "http://quantumleap:8668/v2/entities/Room1/value"
       {[ "limit" := JNum 5 ]} <$> [0],
     Some (Raise TypeError)).
Proof.
  eapply (proj2 (values_by_id_pages_without_id (H := sample_externals)
                   (constant_client
                      (sample_page "Room1" [("2024-01-01T00:00:00", 20)]))
                   1 "Room1" (limit_args 5))).
  - vm_compute. reflexivity.
  - vm_compute. reflexivity.
Defined.

(** ** [post_subscription], further *)

(** The parameters are put together unless the throttling is negative. *)
Lemma subscription_params_cases `{Externals} (self : Client)
    (a : Subscription.args) :
  (∃ t, Subscription.throttling a = Some t ∧ t < 0
        ∧ subscription_params self a = Raise TypeError)
  ∨ ((∀ t, Subscription.throttling a = Some t → 0 ≤ t)
     ∧ ∃ params,
         subscription_params self a = Return params
         ∧ params !! "orionUrl" = Some (JStr (urljoin CB_URL "/v2"))
         ∧ params !! "quantumleapUrl"
           = Some (JStr (urljoin (base_url self) "/v2"))
         ∧ params !! "throttling"
           = (t ← Subscription.throttling a;
              if decide (1 ≤ t) then Some (JNum t) else None)).
Proof.
  unfold subscription_params.
  set (p0 := update_if "notifiedAttributes" _ _).
  assert (Hp0 : p0 !! "orionUrl" = Some (JStr (urljoin CB_URL "/v2"))
                ∧ p0 !! "quantumleapUrl"
                  = Some (JStr (urljoin (base_url self) "/v2"))
                ∧ p0 !! "throttling" = None).
  { subst p0. split_and!.
    - rewrite !update_if_lookup_ne by done.
      by rewrite lookup_insert_ne, lookup_insert_eq.
    - rewrite !update_if_lookup_ne by done. by rewrite lookup_insert_eq.
    - rewrite !update_if_lookup_ne by done.
      by rewrite !lookup_insert_ne, lookup_empty. }
  destruct Hp0 as (Horion & Hql & Hthr).
  set (tia := Subscription.time_index_attribute a).
  destruct (Subscription.throttling a) as [t|] eqn:Ht; simpl.
  - unfold truthy_int. destruct (decide (t = 0)) as [->|Hne]; simpl.
    + right. split; [by intros t [= <-]|].
      exists (update_if "timeIndexAttribute" tia p0).
      rewrite !update_if_lookup_ne by done. by split_and!.
    + destruct (t <? 1) eqn:Hlt; simpl.
      * left. exists t. apply Z.ltb_lt in Hlt. split_and!; [done|lia|done].
      * right. apply Z.ltb_ge in Hlt. split; [intros t' [= <-]; lia|].
        exists (update_if "timeIndexAttribute" tia
                  (<["throttling" := JNum t]> p0)).
        rewrite !update_if_lookup_ne by done.
        rewrite !lookup_insert_ne by done. rewrite lookup_insert_eq.
        destruct (decide (1 ≤ t)); [|lia]. by split_and!.
  - right. split; [done|].
    exists (update_if "timeIndexAttribute" tia p0).
    rewrite !update_if_lookup_ne by done. by split_and!.
Qed.

(** X11. [post_subscription] sends nothing exactly when the throttling given
    is negative, and it then raises [TypeError]; in every other case one
    request is sent. *)
Theorem post_subscription_sends_nothing_iff `{Externals} (self : Client)
    (a : Subscription.args) :
  ((post_subscription self a).1 = []
   ↔ ∃ t, Subscription.throttling a = Some t ∧ t < 0)
  ∧ ((post_subscription self a).1 = [] →
     post_subscription self a = ([], Some (Raise TypeError)))
  ∧ ((post_subscription self a).1 ≠ [] →
     length (post_subscription self a).1 = 1%nat).
Proof.
  unfold post_subscription.
  destruct (subscription_params_cases self a)
    as [(t & Ht & Hneg & ->)|(Hpos & params & -> & _)].
  - split_and!; [|done|done]. split; [|done]. intros _. by exists t.
  - split_and!; [|done|done]. split; [done|].
    intros (t & Ht & Hneg). specialize (Hpos t Ht). lia.
Qed.

Example negative_throttling :
  post_subscription (H := sample_externals) (constant_client JNull)
    (throttling_args (-5))
  = ([], Some (Raise TypeError)).
Proof. reflexivity. Qed.

(** X12. With a throttling that is not negative (or none), [post_subscription]
    sends exactly one request, to [/v2/subscribe]; its parameters always hold
    the two urls, and hold [throttling] exactly when a value of at least 1
    was given; the method returns normally exactly when the service answers
    that request with a status that is [ok]. *)
Theorem post_subscription_request `{Externals} (self : Client)
    (a : Subscription.args) :
  (∀ t, Subscription.throttling a = Some t → 0 ≤ t) →
  ∃ params,
    let req := mkRequest (urljoin (base_url self) "/v2/subscribe") params in
    (post_subscription self a).1 = [req]
    ∧ params !! "orionUrl" = Some (JStr (urljoin CB_URL "/v2"))
    ∧ params !! "quantumleapUrl" = Some (JStr (urljoin (base_url self) "/v2"))
    ∧ params !! "throttling"
      = (t ← Subscription.throttling a;
         if decide (1 ≤ t) then Some (JNum t) else None)
    ∧ ((post_subscription self a).2 = Some (Return ())
       ↔ ∃ res, post self req = Responded res ∧ ok res = true).
Proof.
  intros Hpos. unfold post_subscription.
  destruct (subscription_params_cases self a)
    as [(t & Ht & Hneg & _)|(_ & params & -> & Horion & Hql & Hthr)].
  { specialize (Hpos t Ht). lia. }
  exists params. simpl. split_and!; try done.
  unfold send_post. simpl.
  destruct (post self _) as [res|r].
  - destruct (ok res) eqn:Hok.
    + split; [eauto|done].
    + split; [done|]. intros (res' & [= <-] & Hok'). congruence.
  - split; [done|]. by intros (res & [=] & _).
Qed.

Lemma post_subscription_request_witness :
  ∃ params,
    let self := constant_client JNull in
    let req := mkRequest "http://quantumleap:8668/v2/subscribe" params in
    (post_subscription (H := sample_externals) self (throttling_args 30)).1
    = [req]
    ∧ params !! "orionUrl" = Some (JStr "http://orion:1026/v2")
    ∧ params !! "quantumleapUrl" = Some (JStr "http://quantumleap:8668/v2")
    ∧ params !! "throttling" = Some (JNum 30)
    ∧ ((post_subscription (H := sample_externals) self (throttling_args 30)).2
       = Some (Return ())
       ↔ ∃ res, post self req = Responded res ∧ ok res = true).
Proof.
  apply (post_subscription_request (H := sample_externals)
           (constant_client JNull) (throttling_args 30)).
  intros t [= <-]. lia.
Defined.

(** ** [create_query], further *)

Lemma mapM_outcome_raises {A B} (f : A → outcome B) l :
  raises (mapM f l) ↔ ∃ x, x ∈ l ∧ raises (f x).
Proof.
  induction l as [|x l IH].
  - split; [by intros [e ?]|]. by intros (x & ?%elem_of_nil & _).
  - rewrite mapM_outcome_cons. destruct (f x) as [y|e] eqn:Hx.
    + destruct (mapM f l) as [k|e] eqn:Hl.
      * split; [by intros [e ?]|].
        intros (x' & [->|Hin]%elem_of_cons & [e He]); [congruence|].
        destruct (proj2 IH) as [e' ?]; [|done]. exists x'. split; [done|].
        by exists e.
      * split; [|by exists e]. intros _.
        destruct (proj1 IH) as (x' & Hin & Hr); [by exists e|].
        exists x'. split; [by right|done].
    + split; [|by exists e]. intros _. exists x. split; [left|].
      rewrite Hx. by exists e.
Qed.

(** X13. [create_query] raises exactly when the list holds a raw triple that
    [Statement] rejects; elements that are [Statement]s already are taken as
    they are.  So a query is either built from all elements or not at all. *)
Theorem create_query_raises_iff `{Builtins}
    (set_order : list Statement → list Statement)
    (args : list statement_arg) :
  raises (create_query set_order (AList args))
  ↔ ∃ l o r, ATuple l o r ∈ args ∧ raises (Statement_new l o r).
Proof.
  assert (Hq : raises (create_query set_order (AList args))
               ↔ raises (mapM coerce args)).
  { unfold create_query. destruct (mapM coerce args) as [sts|e]; simpl.
    - split; by intros [e ?].
    - split; intros _; by exists e. }
  rewrite Hq, mapM_outcome_raises. split.
  - intros ([st|l o r] & Hin & Hr); [by destruct Hr|]. by exists l, o, r.
  - intros (l & o & r & Hin & Hr). by exists (ATuple l o r).
Qed.

Example create_query_rejects `{Builtins} :
  create_query py_set
    (AList [ATuple "a" "==" (RStr "1"); ATuple "t" ">" (RStr "warm")])
  = Raise ValueError.
Proof. reflexivity. Qed.

Lemma set_order_nil set_order : is_set_order set_order → set_order [] = [].
Proof. intros Hset. apply Permutation_nil_r. by rewrite (Hset []). Qed.

Lemma set_order_singleton set_order st :
  is_set_order set_order → set_order [st] = [st].
Proof. intros Hset. apply Permutation_singleton_r. by rewrite (Hset [st]). Qed.

(** X14. An argument that is no list is treated as the list of that one
    element; a query of one statement is that statement's printed form,
    without a separator; and the empty list gives the empty string. *)
Theorem create_query_single `{Builtins}
    (set_order : list Statement → list Statement) :
  is_set_order set_order →
  (∀ x, create_query set_order (ASingle x) = create_query set_order (AList [x]))
  ∧ (∀ x st, coerce x = Return st →
       create_query set_order (ASingle x) = Return (Statement_str st))
  ∧ create_query set_order (AList []) = Return "".
Proof.
  intros Hset. split_and!.
  - done.
  - intros x st Hst. unfold create_query. simpl. rewrite Hst. simpl.
    by rewrite set_order_singleton.
  - unfold create_query. simpl. by rewrite set_order_nil.
Qed.

Lemma create_query_single_witness :
  create_query (H := sample_builtins) py_set
    (ASingle (ATuple "temperature" ">" (RStr "42")))
  = Return "temperature>42".
Proof.
  apply (proj1 (proj2 (create_query_single (H := sample_builtins) py_set
                         py_set_is_set_order))
           (ATuple "temperature" ">" (RStr "42"))
           (mkStatement "temperature" ">" (RStr "42"))).
  reflexivity.
Defined.

Lemma py_set_keys l k :
  k ∈ Statement_key <$> py_set l ↔ k ∈ Statement_key <$> l.
Proof.
  rewrite !list_elem_of_fmap. split.
  - intros (y & -> & Hy). exists y. split; [done|]. by apply py_set_elem_of.
  - intros (y & -> & Hy). destruct (py_set_covers l y Hy) as (y' & Hin & Hkey).
    by exists y'.
Qed.

(** X15. The query depends on the set of statements only, where statements
    that are equal for Python count as one: two argument lists with the same
    statements, in whatever order and however often repeated, give queries
    of statements with the same keys, one for each key, up to the order of
    the set.  Where the statements of equal keys are the same statements (no
    [1] next to a [1.0]), the two queries are made of the same printed
    statements, each once. *)
Theorem create_query_same_statements `{Builtins}
    (set_order : list Statement → list Statement)
    (args1 args2 : list statement_arg) (sts1 sts2 : list Statement) :
  is_set_order set_order →
  mapM coerce args1 = Return sts1 →
  mapM coerce args2 = Return sts2 →
  (∀ st, st ∈ sts1 ↔ st ∈ sts2) →
  ∃ order1 order2,
    Statement_key <$> order1 ≡ₚ Statement_key <$> order2
    ∧ NoDup (Statement_key <$> order1)
    ∧ ((∀ x y, x ∈ sts1 → y ∈ sts1 →
          Statement_key x = Statement_key y → x = y) →
       order1 ≡ₚ order2 ∧ NoDup order1)
    ∧ create_query set_order (AList args1)
      = Return (String.concat ";" (Statement_str <$> order1))
    ∧ create_query set_order (AList args2)
      = Return (String.concat ";" (Statement_str <$> order2)).
Proof.
  intros Hset H1 H2 Hsame. exists (set_order sts1), (set_order sts2).
  pose proof (Hset sts1) as Hp1. pose proof (Hset sts2) as Hp2.
  assert (Hhalf : ∀ l1 l2,
            (∀ st, st ∈ l1 ↔ st ∈ l2) →
            (∀ x y, x ∈ l1 → y ∈ l1 →
               Statement_key x = Statement_key y → x = y) →
            ∀ x, x ∈ py_set l1 → x ∈ py_set l2).
  { intros l1 l2 Hl Hinj x Hx. apply py_set_elem_of in Hx.
    destruct (py_set_covers l2 x) as (y & Hy & Hkey); [by apply Hl|].
    assert (y = x) as ->; [|done].
    apply Hinj; [|done..]. apply Hl. by apply py_set_elem_of. }
  split_and!.
  - rewrite Hp1, Hp2.
    apply NoDup_Permutation; [apply py_set_keys_NoDup..|].
    intros k. rewrite !py_set_keys, !list_elem_of_fmap.
    split; intros (y & -> & Hy); exists y; (split; [done|]); by apply Hsame.
  - rewrite Hp1. apply py_set_keys_NoDup.
  - intros Hinj. rewrite Hp1, Hp2. split; [|apply py_set_NoDup].
    apply NoDup_Permutation; [apply py_set_NoDup..|].
    intros x. split.
    + by apply Hhalf.
    + apply Hhalf; [intros st; symmetry; apply Hsame|].
      intros x' y' Hx' Hy'. apply Hinj; by apply Hsame.
  - by apply create_query_coerced.
  - by apply create_query_coerced.
Qed.

Lemma create_query_same_statements_witness :
  ∃ order1 order2,
    Statement_key <$> order1 ≡ₚ Statement_key <$> order2
    ∧ NoDup (Statement_key <$> order1)
    ∧ ((∀ x y,
          x ∈ [mkStatement "a" "==" (RStr "1"); mkStatement "b" "!=" (RStr "2");
               mkStatement "a" "==" (RStr "1")] →
          y ∈ [mkStatement "a" "==" (RStr "1"); mkStatement "b" "!=" (RStr "2");
               mkStatement "a" "==" (RStr "1")] →
          Statement_key x = Statement_key y → x = y) →
       order1 ≡ₚ order2 ∧ NoDup order1)
    ∧ create_query (H := sample_builtins) py_set
        (AList [ATuple "a" "==" (RStr "1"); ATuple "b" "!=" (RStr "2");
                ATuple "a" "==" (RStr "1")])
      = Return (String.concat ";"
                  (Statement_str (H := sample_builtins) <$> order1))
    ∧ create_query (H := sample_builtins) py_set
        (AList [ATuple "b" "!=" (RStr "2"); ATuple "a" "==" (RStr "1")])
      = Return (String.concat ";"
                  (Statement_str (H := sample_builtins) <$> order2)).
Proof.
  apply (create_query_same_statements (H := sample_builtins) py_set _ _
           [mkStatement "a" "==" (RStr "1"); mkStatement "b" "!=" (RStr "2");
            mkStatement "a" "==" (RStr "1")]
           [mkStatement "b" "!=" (RStr "2"); mkStatement "a" "==" (RStr "1")]
           py_set_is_set_order).
  - reflexivity.
  - reflexivity.
  - intros st. set_solver.
Defined.

(** Of statements that are equal for Python the first of the list is the one
    printed, so that the same statements in another order can give another
    query. *)
Example create_query_keeps_first :
  create_query (H := sample_builtins) py_set
    (AList [ATuple "a" "==" (RInt 1);
            ATuple "a" "==" (RFloat (FFinite false 1 0))])
  = Return "a==1"
  ∧ create_query (H := sample_builtins) py_set
      (AList [ATuple "a" "==" (RFloat (FFinite false 1 0));
              ATuple "a" "==" (RInt 1)])
    = Return "a==1.0"
  ∧ create_query (H := sample_builtins) py_set
      (AList [ATuple "a" "==" (RBool true); ATuple "a" "==" (RInt 1)])
    = Return "a==True"
  ∧ create_query (H := sample_builtins) py_set
      (AList [ATuple "a" (OMember EQUAL) (RInt 1); ATuple "a" "==" (RInt 1)])
    = Return "aOperator.EQUAL1".
Proof. by split_and!. Qed.

(** ** The [type] parameter of the by-type methods *)

Lemma io_bind_lift_sent {A B} (m : io A) (f : A → outcome B) :
  (m ≫= λ y, io_lift (f y)).1 = m.1.
Proof.
  unfold mbind, io_mbind, io_bind, io_lift.
  destruct m as [sent [[y|e]|]]; simpl; [|done..]. by rewrite app_nil_r.
Qed.

Lemma build_params_type `{Externals} (a : query_args) params :
  build_params a = Return params →
  params !! "type" = JStr <$> truthy_str (entity_type a).
Proof.
  unfold build_params.
  intros (p1 & Hm & (p2 & Hper & (p3 & Hscope & [= <-])%outcome_bind_Return)
    %outcome_bind_Return)%outcome_bind_Return.
  rewrite update_if_lookup_ne by done.
  rewrite (update_enum_lookup_ne _ _ _ _ _ _ Hscope) by done.
  rewrite !update_if_lookup_ne by done.
  assert (Hlimit : ∀ (p : gmap string json) v,
            (<["limit" := v]> p) !! "type" = p !! "type").
  { intros p v. by rewrite lookup_insert_ne. }
  assert (Hrest :
    (match truthy_int (last_n a) with
     | Some n => <["lastN" := JNum n]>
                   (update_if "toDate" (to_date a)
                      (update_if "fromDate" (from_date a) p2))
     | None => update_if "toDate" (to_date a)
                 (update_if "fromDate" (from_date a) p2)
     end) !! "type" = JStr <$> truthy_str (entity_type a)).
  { assert (Hp2 : p2 !! "type" = JStr <$> truthy_str (entity_type a)).
    { rewrite (update_enum_lookup_ne _ _ _ _ _ _ Hper) by done.
      rewrite (update_enum_lookup_ne _ _ _ _ _ _ Hm) by done.
      unfold update_if at 1. destruct (truthy_str (entity_type a)) as [s|].
      - apply lookup_insert_eq.
      - rewrite update_if_lookup_ne by done. apply lookup_empty. }
    destruct (truthy_int (last_n a)).
    - rewrite lookup_insert_ne by done. by rewrite !update_if_lookup_ne.
    - by rewrite !update_if_lookup_ne. }
  destruct (limit a) as [l|]; [destruct (max_entries_per_request <? l)|];
    by rewrite Hlimit.
Qed.

Lemma query_builder_parameter `{Externals} (self : Client) (url : string)
    (a : query_args) (fuel : nat) (sent : list request)
    (r : option (outcome (list json))) (key : string) :
  query_builder self fuel url a = (sent, r) →
  key ≠ "offset" →
  Forall (λ req, ∃ params, build_params a = Return params
                           ∧ req_params req !! key = params !! key) sent.
Proof.
  intros Hrun Hkey. destruct (build_params a) as [params|e] eqn:Hp.
  - destruct (query_builder_sent self url a params fuel sent r Hp Hrun)
      as [Hsent _].
    rewrite Hsent. apply Forall_fmap, Forall_forall. intros o _.
    exists params. split; [done|]. simpl. by rewrite lookup_insert_ne.
  - revert Hrun. unfold query_builder, mbind, io_mbind, io_bind, io_lift.
    rewrite Hp. intros [= <- <-]. constructor.
Qed.

(** X16. The two by-type methods differ in what they send: no request of
    [get_entity_by_type] carries a [type] parameter (the type is part of the
    url only), while every request of [get_entity_values_by_type] carries
    [type], equal to the entity type (unless that is the empty string). *)
Theorem by_type_type_parameter `{Externals} (self : Client) (fuel : nat)
    (entity_type : string) (a : query_args) :
  Forall (λ req, req_params req !! "type" = None)
    (get_entity_by_type self fuel entity_type a).1
  ∧ Forall (λ req, req_params req !! "type"
                   = JStr <$> truthy_str (Some entity_type))
      (get_entity_values_by_type self fuel entity_type a).1.
Proof.
  split.
  - unfold get_entity_by_type. rewrite io_bind_lift_sent.
    destruct (query_builder _ _ _ _) as [sent r] eqn:Hrun. simpl.
    eapply Forall_impl;
      [exact (query_builder_parameter _ _ _ _ _ _ "type" Hrun ltac:(done))|].
    intros req (params & Hp & ->). by rewrite (build_params_type _ _ Hp).
  - unfold get_entity_values_by_type. rewrite io_bind_lift_sent.
    destruct (query_builder _ _ _ _) as [sent r] eqn:Hrun. simpl.
    eapply Forall_impl;
      [exact (query_builder_parameter _ _ _ _ _ _ "type" Hrun ltac:(done))|].
    intros req (params & Hp & ->). by rewrite (build_params_type _ _ Hp).
Qed.

Example values_by_type_sends_type :
  req_params <$>
    (get_entity_values_by_type (H := sample_externals)
       (constant_client (sample_chunk "values" [])) 1 "Room" (limit_args 5)).1
  = [ {[ "limit" := JNum 5; "type" := JStr "Room"; "offset" := JNum 0 ]} ].
Proof. vm_compute. reflexivity. Qed.

(** ** Queries without a limit *)

(** X17. Without a limit ([limit=None], the default of most query methods)
    the loop has no normal exit: when [__query_builder] returns, it has sent
    one request more than it collected pages, and that last request was
    answered "not found" after at least one page. *)
Theorem unlimited_query_ends_on_not_found `{Externals} (self : Client)
    (url : string) (a : query_args) (params : gmap string json) (fuel : nat)
    (sent : list request) (pages : list json) :
  build_params a = Return params →
  limit a = None →
  query_builder self fuel url a = (sent, Some (Return pages)) →
  length sent = S (length pages)
  ∧ pages ≠ []
  ∧ not_found (get self (page_request url params
                           (default 0 (offset a)
                            + max_entries_per_request * Z.of_nat (length pages))))
    = true.
Proof.
  intros Hp Hl. rewrite (query_builder_params _ _ _ _ params), Hl by done.
  intros (bodies & -> & _ & Hend)%page_loop_returns. simpl in Hend.
  destruct Hend as [[_ ?]|(? & ? & _ & ?)]; done.
Qed.

Lemma unlimited_query_ends_on_not_found_witness :
  let self := sample_client [JStr "page 0"; JStr "page 1"]
                (Responded response_not_found) in
  let sent := page_request "url" {[ "limit" := JNum 5 ]} <$> [0; 5; 10] in
  let pages := [JStr "page 0"; JStr "page 1"] in
  length sent = S (length pages)
  ∧ pages ≠ []
  ∧ not_found (get self (page_request "url" {[ "limit" := JNum 5 ]}
                           (default 0 (offset no_args)
                            + max_entries_per_request * Z.of_nat (length pages))))
    = true.
Proof.
  intros self sent pages.
  apply (unlimited_query_ends_on_not_found (H := sample_externals) self "url"
           no_args {[ "limit" := JNum 5 ]} 3 sent pages).
  - reflexivity.
  - reflexivity.
  - reflexivity.
Defined.

Lemma page_loop_runs_on self url params :
  (∀ req, is_Some (fetched_body (get self req))) →
  ∀ fuel offset list_of_res,
    ∃ sent, page_loop self url None fuel params offset list_of_res = (sent, None)
            ∧ length sent = fuel.
Proof.
  intros Hall. induction fuel as [|fuel IH]; intros offset acc.
  - by exists [].
  - rewrite page_loop_step by done.
    destruct (Hall (page_request url params offset)) as [b Hb].
    rewrite (try_block_fetched _ b) by done.
    destruct (IH (offset + max_entries_per_request) (acc ++ [b]))
      as (sent & -> & Hlen).
    eexists. split; [done|]. simpl. by rewrite Hlen.
Qed.

(** X18. Without a limit and with a service that answers every request
    successfully, [__query_builder] never comes back: however long it runs,
    it has neither returned nor raised, and has sent one request per pass. *)
Theorem unlimited_query_runs_on `{Externals} (self : Client) (url : string)
    (a : query_args) (params : gmap string json) (fuel : nat) :
  build_params a = Return params →
  limit a = None →
  (∀ req, is_Some (fetched_body (get self req))) →
  ∃ sent, query_builder self fuel url a = (sent, None) ∧ length sent = fuel.
Proof.
  intros Hp Hl Hall.
  rewrite (query_builder_params _ _ _ _ params), Hl by done.
  by apply page_loop_runs_on.
Qed.

Lemma unlimited_query_runs_on_witness :
  ∃ sent,
    query_builder (H := sample_externals) (constant_client (JList [])) 7 "url"
      no_args
    = (sent, None)
    ∧ length sent = 7%nat.
Proof.
  apply (unlimited_query_runs_on (H := sample_externals)
           (constant_client (JList [])) "url" no_args {[ "limit" := JNum 5 ]} 7).
  - reflexivity.
  - reflexivity.
  - intros req. simpl. eauto.
Defined.
